(** * The pane tree of a terminal tab (TerminalApp/Pane.cpp)

    A shallow embedding of [Pane]: the binary tree of terminal panes, its
    queries, focus refresh, settings propagation, split and close/collapse,
    together with the two events the class uses ([ConnectionClosed] of a
    terminal control and [Closed] of a pane).

    What is modelled and how:
    - a [Pane] is the record of the member variables of the C++ class; the
      children are owning pointers used as a strict tree, so a pane is a
      value that contains its children.  Every pane also carries the address
      it was allocated at ([this]), because the event handlers capture the
      raw [this] pointer;
    - the XAML members ([_root], [_separatorRoot]) and every call that only
      arranges grids are left out: layout is outside the pane-tree logic;
    - terminal controls are external objects: their [ConnectionClosed]
      subscriptions, the calls made on them and the queue of the UI
      dispatcher live in a [World] threaded through the mutating methods;
    - a null dereference, [std::optional::value] on an empty optional and a
      call through a pointer to a destroyed pane have no result ([None]). *)

From Stdlib Require Import List Bool Arith Lia.
Import ListNotations.

Set Implicit Arguments.

(** ** Opaque collaborators *)

Definition GUID := nat.
Definition TermControl := nat.       (* a non-null control handle *)
Definition TerminalSettings := nat.
Definition event_token := nat.
Definition addr := nat.              (* where a Pane object lives *)

Module SplitState.
Inductive t : Set := None | Vertical | Horizontal.

Definition eqb (a b : t) : bool :=
  match a, b with
  | None, None | Vertical, Vertical | Horizontal, Horizontal => true
  | _, _ => false
  end.
End SplitState.

(** The delegate that [_SetupChildCloseHandlers] registers on a child: it
    captures [this] of the registering pane and the constant passed to
    [_CloseChild]. *)
Record ClosedHandler : Set := mkClosedHandler {
  owner : addr;
  closeFirst : bool
}.

(** ** The pane *)

Unset Elimination Schemes.
Inductive Pane : Type := mkPane {
  this : addr;
  _control : option TermControl;
  _lastFocused : bool;
  _profile : option GUID;
  _splitState : SplitState.t;
  _firstChild : option Pane;
  _secondChild : option Pane;
  _connectionClosedToken : event_token;
  _firstClosedToken : event_token;
  _secondClosedToken : event_token;
  _closedHandlers : list (event_token * ClosedHandler)
}.
Set Elimination Schemes.

(** Assignments to one member. *)
Definition set_control (v : option TermControl) (p : Pane) : Pane :=
  mkPane (this p) v (_lastFocused p) (_profile p) (_splitState p)
         (_firstChild p) (_secondChild p) (_connectionClosedToken p)
         (_firstClosedToken p) (_secondClosedToken p) (_closedHandlers p).

Definition set_lastFocused (v : bool) (p : Pane) : Pane :=
  mkPane (this p) (_control p) v (_profile p) (_splitState p)
         (_firstChild p) (_secondChild p) (_connectionClosedToken p)
         (_firstClosedToken p) (_secondClosedToken p) (_closedHandlers p).

Definition set_profile (v : option GUID) (p : Pane) : Pane :=
  mkPane (this p) (_control p) (_lastFocused p) v (_splitState p)
         (_firstChild p) (_secondChild p) (_connectionClosedToken p)
         (_firstClosedToken p) (_secondClosedToken p) (_closedHandlers p).

Definition set_splitState (v : SplitState.t) (p : Pane) : Pane :=
  mkPane (this p) (_control p) (_lastFocused p) (_profile p) v
         (_firstChild p) (_secondChild p) (_connectionClosedToken p)
         (_firstClosedToken p) (_secondClosedToken p) (_closedHandlers p).

Definition set_firstChild (v : option Pane) (p : Pane) : Pane :=
  mkPane (this p) (_control p) (_lastFocused p) (_profile p) (_splitState p)
         v (_secondChild p) (_connectionClosedToken p)
         (_firstClosedToken p) (_secondClosedToken p) (_closedHandlers p).

Definition set_secondChild (v : option Pane) (p : Pane) : Pane :=
  mkPane (this p) (_control p) (_lastFocused p) (_profile p) (_splitState p)
         (_firstChild p) v (_connectionClosedToken p)
         (_firstClosedToken p) (_secondClosedToken p) (_closedHandlers p).

Definition set_connectionClosedToken (v : event_token) (p : Pane) : Pane :=
  mkPane (this p) (_control p) (_lastFocused p) (_profile p) (_splitState p)
         (_firstChild p) (_secondChild p) v
         (_firstClosedToken p) (_secondClosedToken p) (_closedHandlers p).

Definition set_firstClosedToken (v : event_token) (p : Pane) : Pane :=
  mkPane (this p) (_control p) (_lastFocused p) (_profile p) (_splitState p)
         (_firstChild p) (_secondChild p) (_connectionClosedToken p)
         v (_secondClosedToken p) (_closedHandlers p).

Definition set_secondClosedToken (v : event_token) (p : Pane) : Pane :=
  mkPane (this p) (_control p) (_lastFocused p) (_profile p) (_splitState p)
         (_firstChild p) (_secondChild p) (_connectionClosedToken p)
         (_firstClosedToken p) v (_closedHandlers p).

Definition set_closedHandlers (v : list (event_token * ClosedHandler))
    (p : Pane) : Pane :=
  mkPane (this p) (_control p) (_lastFocused p) (_profile p) (_splitState p)
         (_firstChild p) (_secondChild p) (_connectionClosedToken p)
         (_firstClosedToken p) (_secondClosedToken p) v.

(** ** The world outside the tree *)

(** Calls made on a terminal control that change nothing in the tree. *)
Inductive ControlCall : Set :=
| UpdateSettings (c : TermControl) (settings : TerminalSettings)
| Focus (c : TermControl).            (* Focus(FocusState::Programmatic) *)

Record World : Set := mkWorld {
  (* ConnectionClosed subscriptions of all controls, in registration order:
     control, token, and the pane whose lambda was registered *)
  connectionClosed : list (TermControl * (event_token * addr));
  (* tasks handed to Dispatcher().RunAsync and not yet run *)
  dispatcher : list ClosedHandler;
  (* calls made on controls, oldest first *)
  calls : list ControlCall;
  next_token : event_token;
  next_pane : addr
}.

Definition World0 : World := mkWorld [] [] [] 1 1.

(** State and failure. *)
Definition M (A : Type) : Type := World -> option (A * World).

Definition ret {A} (a : A) : M A := fun w => Some (a, w).

Definition bind {A B} (m : M A) (k : A -> M B) : M B :=
  fun w => match m w with
           | Some (a, w') => k a w'
           | None => None
           end.

Definition crash {A} : M A := fun _ => None.

Declare Scope pane_scope.
Delimit Scope pane_scope with pane.
Notation "x <- m ;; k" := (bind m (fun x => k))
  (at level 61, m at next level, right associativity) : pane_scope.
Notation "m ;;; k" := (bind m (fun _ => k))
  (at level 61, right associativity) : pane_scope.
Open Scope pane_scope.

(** [p->...] through a pointer that may be null, and [optional::value]. *)
Definition deref {A} (o : option A) : M A :=
  match o with
  | Some a => ret a
  | None => crash
  end.

Definition fresh_token : M event_token :=
  fun w => Some (next_token w,
                 mkWorld (connectionClosed w) (dispatcher w) (calls w)
                         (S (next_token w)) (next_pane w)).

Definition fresh_pane : M addr :=
  fun w => Some (next_pane w,
                 mkWorld (connectionClosed w) (dispatcher w) (calls w)
                         (next_token w) (S (next_pane w))).

(** [control.ConnectionClosed(handler)]: subscribe, get the token. *)
Definition ConnectionClosed_add (c : TermControl) (a : addr) : M event_token :=
  tok <- fresh_token ;;
  fun w => Some (tok,
                 mkWorld (connectionClosed w ++ [(c, (tok, a))]) (dispatcher w)
                         (calls w) (next_token w) (next_pane w)).

(** [control.ConnectionClosed(token)]: revoke. *)
Definition ConnectionClosed_revoke (c : TermControl) (tok : event_token)
  : M unit :=
  fun w => Some (tt,
                 mkWorld (filter (fun s => negb ((fst s =? c) && (fst (snd s) =? tok)))
                                 (connectionClosed w))
                         (dispatcher w) (calls w) (next_token w) (next_pane w)).

Definition call (x : ControlCall) : M unit :=
  fun w => Some (tt,
                 mkWorld (connectionClosed w) (dispatcher w) (calls w ++ [x])
                         (next_token w) (next_pane w)).

(** [_root.Dispatcher().RunAsync(Normal, task)]. *)
Definition RunAsync (task : ClosedHandler) : M unit :=
  fun w => Some (tt,
                 mkWorld (connectionClosed w) (dispatcher w ++ [task]) (calls w)
                         (next_token w) (next_pane w)).

(** ** The Closed event of a pane *)

(** Modelled from the spec: [Closed(handler)], one of the two functions that
    the macro [DEFINE_EVENT(Pane, Closed, _closedHandlers, ...)] defines; the
    macro is declared in a header that is not part of the sources at hand.
    The spec describes Closed as a notification that a parent subscribes to:
    the delegate is appended to [_closedHandlers] and a fresh token is
    returned. *)
Definition Closed_add (p : Pane) (h : ClosedHandler) : M (event_token * Pane) :=
  tok <- fresh_token ;;
  ret (tok, set_closedHandlers (_closedHandlers p ++ [(tok, h)]) p).

(** Modelled from the spec: [Closed(token)], the other function defined by
    [DEFINE_EVENT]; it unsubscribes the delegate registered under the
    token. *)
Definition Closed_revoke (p : Pane) (tok : event_token) : Pane :=
  set_closedHandlers
    (filter (fun e => negb (fst e =? tok)) (_closedHandlers p)) p.

(** ** Construction *)

(** [Pane::_AddControlToRoot]: subscribes a lambda capturing [this] to the
    control's ConnectionClosed event and keeps the token.  Calling
    [control.GetControl()] on a null control has no result. *)
Definition _AddControlToRoot (control : option TermControl) (p : Pane)
  : M Pane :=
  c <- deref control ;;
  tok <- ConnectionClosed_add c (this p) ;;
  ret (set_connectionClosedToken tok p).

(** [Pane::Pane(profile, control, lastFocused)], allocated at a fresh
    address. *)
Definition Pane_new (profile : GUID) (control : option TermControl)
    (lastFocused : bool) : M Pane :=
  a <- fresh_pane ;;
  _AddControlToRoot control
    (mkPane a control lastFocused (Some profile) SplitState.None
            None None 0 0 0 []).

(** ** Queries *)

Definition _IsLeaf (p : Pane) : bool :=
  SplitState.eqb (_splitState p) SplitState.None.

Definition WasLastFocused (p : Pane) : bool := _lastFocused p.

(** The outer [option] is [None] when a null child is dereferenced; the
    inner one is the nullable result of the C++ function. *)
Fixpoint GetLastFocusedTerminalControl (p : Pane)
  : option (option TermControl) :=
  if _IsLeaf p then
    Some (if _lastFocused p then _control p else None)
  else
    match _firstChild p with
    | None => None
    | Some first =>
        match GetLastFocusedTerminalControl first with
        | None => None
        | Some (Some firstFocused) => Some (Some firstFocused)
        | Some None =>
            match _secondChild p with
            | None => None
            | Some second => GetLastFocusedTerminalControl second
            end
        end
    end.

Fixpoint GetLastFocusedProfile (p : Pane) : option (option GUID) :=
  if _IsLeaf p then
    Some (if _lastFocused p then _profile p else None)
  else
    match _firstChild p with
    | None => None
    | Some first =>
        match GetLastFocusedProfile first with
        | None => None
        | Some (Some firstFocused) => Some (Some firstFocused)
        | Some None =>
            match _secondChild p with
            | None => None
            | Some second => GetLastFocusedProfile second
            end
        end
    end.

(** [focused c] stands for
    [c.GetControl().FocusState() != FocusState::Unfocused], a value read from
    the UI. *)
Fixpoint _HasFocusedChild (focused : TermControl -> bool) (p : Pane) : bool :=
  let controlFocused :=
    match _control p with
    | Some c => focused c
    | None => false
    end in
  let firstFocused :=
    match _firstChild p with
    | Some first => _HasFocusedChild focused first
    | None => false
    end in
  let secondFocused :=
    match _secondChild p with
    | Some second => _HasFocusedChild focused second
    | None => false
    end in
  controlFocused || firstFocused || secondFocused.

(** ** Focus refresh and settings propagation *)

Fixpoint CheckFocus (focused : TermControl -> bool) (p : Pane) : M Pane :=
  if _IsLeaf p then
    let controlFocused :=
      match _control p with
      | Some c => focused c
      | None => false
      end in
    ret (set_lastFocused controlFocused p)
  else
    let p := set_lastFocused false p in
    match _firstChild p with
    | None => crash
    | Some first =>
        first' <- CheckFocus focused first ;;
        let p := set_firstChild (Some first') p in
        match _secondChild p with
        | None => crash
        | Some second =>
            second' <- CheckFocus focused second ;;
            ret (set_secondChild (Some second') p)
        end
    end.

(** [profile == _profile] compares a GUID with an optional GUID. *)
Definition guid_eq_opt (profile : GUID) (o : option GUID) : bool :=
  match o with
  | Some g => profile =? g
  | None => false
  end.

Fixpoint CheckUpdateSettings (settings : TerminalSettings) (profile : GUID)
    (p : Pane) : M Pane :=
  if negb (_IsLeaf p) then
    match _firstChild p with
    | None => crash
    | Some first =>
        first' <- CheckUpdateSettings settings profile first ;;
        let p := set_firstChild (Some first') p in
        match _secondChild p with
        | None => crash
        | Some second =>
            second' <- CheckUpdateSettings settings profile second ;;
            ret (set_secondChild (Some second') p)
        end
    end
  else
    if guid_eq_opt profile (_profile p) then
      c <- deref (_control p) ;;
      call (UpdateSettings c settings) ;;;
      ret p
    else ret p.

(** ** Close / collapse *)

(** [Pane::_SetupChildCloseHandlers]: one delegate on each child, each
    capturing [this]; the delegate of the first child asks for
    [_CloseChild(true)], that of the second for [_CloseChild(false)]. *)
Definition _SetupChildCloseHandlers (p : Pane) : M Pane :=
  first <- deref (_firstChild p) ;;
  r1 <- Closed_add first (mkClosedHandler (this p) true) ;;
  let p := set_firstClosedToken (fst r1) (set_firstChild (Some (snd r1)) p) in
  second <- deref (_secondChild p) ;;
  r2 <- Closed_add second (mkClosedHandler (this p) false) ;;
  ret (set_secondClosedToken (fst r2) (set_secondChild (Some (snd r2)) p)).

(** The two former children as lines 260-261 of [_CloseChild] leave them:
    this pane's delegates are revoked from their Closed events.  Both objects
    are destroyed when [_CloseChild] returns. *)
Definition revoke_old_handlers (p : Pane) : M (Pane * Pane) :=
  first <- deref (_firstChild p) ;;
  let first := Closed_revoke first (_firstClosedToken p) in
  second <- deref (_secondChild p) ;;
  let second := Closed_revoke second (_secondClosedToken p) in
  ret (first, second).

(** [Pane::_CloseChild(closeFirst)]. *)
Definition _CloseChild (closeFirst : bool) (p : Pane) : M Pane :=
  remainingChild <-
    deref (if closeFirst then _secondChild p else _firstChild p) ;;
  if _IsLeaf remainingChild then
    (* take the control and profile of the pane that wasn't closed *)
    taken <- deref (if closeFirst then _secondChild p else _firstChild p) ;;
    let p := set_profile (_profile taken) (set_control (_control taken) p) in
    (* take the focus of either child *)
    first <- deref (_firstChild p) ;;
    second <- deref (_secondChild p) ;;
    let p := set_lastFocused (_lastFocused first || _lastFocused second) p in
    (* reattach the control *)
    p <- _AddControlToRoot (_control p) p ;;
    (if _lastFocused p then
       c <- deref (_control p) ;; call (Focus c)
     else ret tt) ;;;
    let p := set_splitState SplitState.None p in
    (* release our children *)
    ret (set_secondChild None (set_firstChild None p))
  else
    (* revoke the old event handlers *)
    old <- revoke_old_handlers p ;;
    let remainingChild := if closeFirst then snd old else fst old in
    (* steal all the state from our child *)
    let p := set_splitState (_splitState remainingChild) p in
    let p := set_firstChild (_firstChild remainingChild) p in
    let p := set_secondChild (_secondChild remainingChild) p in
    (* _firstChild->GetRootElement(), _secondChild->GetRootElement() *)
    deref (_firstChild p) ;;;
    deref (_secondChild p) ;;;
    _SetupChildCloseHandlers p.

(** ** Split *)

Section Split.

(** The constructor is called with two arguments in the split functions, so
    its third parameter [lastFocused] has a default argument.  The default
    is written in the class declaration (Pane.h), which is not part of the
    sources at hand; it is a parameter here. *)
Variable lastFocused_default : bool.

Variable focused : TermControl -> bool.

(** Common body of [Pane::SplitVertical] and [Pane::SplitHorizontal]: the
    two differ in the value assigned to [_splitState] and in the grid
    rows or columns they create. *)
Fixpoint Split_ (state : SplitState.t) (profile : GUID)
    (control : option TermControl) (p : Pane) : M Pane :=
  if negb (_IsLeaf p) then
    match _firstChild p with
    | None => crash
    | Some first =>
        if _HasFocusedChild focused first then
          first' <- Split_ state profile control first ;;
          ret (set_firstChild (Some first') p)
        else
          match _secondChild p with
          | None => crash
          | Some second =>
              if _HasFocusedChild focused second then
                second' <- Split_ state profile control second ;;
                ret (set_secondChild (Some second') p)
              else ret p
          end
    end
  else
    (* revoke our handler - the child will take care of the control now *)
    c <- deref (_control p) ;;
    ConnectionClosed_revoke c (_connectionClosedToken p) ;;;
    let p := set_splitState state p in
    (* move our control, guid into the first new pane *)
    g <- deref (_profile p) ;;
    first <- Pane_new g (_control p) lastFocused_default ;;
    let p := set_firstChild (Some first) p in
    let p := set_profile None p in
    let p := set_control None p in
    (* move the new guid, control into the second *)
    second <- Pane_new profile control lastFocused_default ;;
    let p := set_secondChild (Some second) p in
    p <- _SetupChildCloseHandlers p ;;
    ret (set_lastFocused false p).

Definition SplitVertical := Split_ SplitState.Vertical.
Definition SplitHorizontal := Split_ SplitState.Horizontal.

End Split.

(** ** Events *)

(** The pane that lives at address [a], if the tree rooted at [p] still owns
    one. A pane that is not in the tree of its tab has been destroyed. *)
Fixpoint find_pane (a : addr) (p : Pane) : option Pane :=
  if this p =? a then Some p
  else
    match match _firstChild p with
          | Some first => find_pane a first
          | None => None
          end with
    | Some x => Some x
    | None =>
        match _secondChild p with
        | Some second => find_pane a second
        | None => None
        end
    end.

(** Runs the method [f] on the pane at address [a]. *)
Fixpoint at_pane (a : addr) (f : Pane -> M Pane) (p : Pane) : M Pane :=
  if this p =? a then f p
  else
    match _firstChild p with
    | Some first =>
        match find_pane a first with
        | Some _ =>
            first' <- at_pane a f first ;;
            ret (set_firstChild (Some first') p)
        | None =>
            match _secondChild p with
            | Some second =>
                second' <- at_pane a f second ;;
                ret (set_secondChild (Some second') p)
            | None => crash
            end
        end
    | None =>
        match _secondChild p with
        | Some second =>
            second' <- at_pane a f second ;;
            ret (set_secondChild (Some second') p)
        | None => crash
        end
    end.

(** [_closedHandlers()]: every delegate, in registration order, calls
    [_root.Dispatcher().RunAsync] through its captured [this]. *)
Fixpoint raise_Closed (root : Pane)
    (handlers : list (event_token * ClosedHandler)) : M unit :=
  match handlers with
  | [] => ret tt
  | (_, h) :: rest =>
      deref (find_pane (owner h) root) ;;;
      RunAsync h ;;;
      raise_Closed root rest
  end.

(** The lambda of [_AddControlToRoot], registered by the pane at [a] on the
    control [c]. *)
Definition on_ConnectionClosed (CloseOnExit : TermControl -> bool)
    (root : Pane) (c : TermControl) (a : addr) : M unit :=
  if CloseOnExit c then
    p <- deref (find_pane a root) ;;
    raise_Closed root (_closedHandlers p)
  else ret tt.

Fixpoint run_subscribers (CloseOnExit : TermControl -> bool) (root : Pane)
    (c : TermControl) (subs : list (TermControl * (event_token * addr)))
  : M unit :=
  match subs with
  | [] => ret tt
  | (c', (_, a)) :: rest =>
      (if c' =? c then on_ConnectionClosed CloseOnExit root c a else ret tt) ;;;
      run_subscribers CloseOnExit root c rest
  end.

(** The control [c] raises ConnectionClosed. *)
Definition signal_ConnectionClosed (CloseOnExit : TermControl -> bool)
    (root : Pane) (c : TermControl) : M unit :=
  fun w => run_subscribers CloseOnExit root c (connectionClosed w) w.

(** The dispatcher runs its oldest task. *)
Definition run_next_task (root : Pane) : M Pane :=
  fun w =>
    match dispatcher w with
    | [] => None
    | task :: rest =>
        at_pane (owner task) (_CloseChild (closeFirst task)) root
                (mkWorld (connectionClosed w) rest (calls w)
                         (next_token w) (next_pane w))
    end.

(** ** Shape of a tree *)

Fixpoint nodes (p : Pane) : list Pane :=
  p :: match _firstChild p with
       | Some first => nodes first
       | None => []
       end
    ++ match _secondChild p with
       | Some second => nodes second
       | None => []
       end.

Fixpoint leaves (p : Pane) : list Pane :=
  if _IsLeaf p then [p]
  else
    match _firstChild p with
    | Some first => leaves first
    | None => []
    end
    ++ match _secondChild p with
       | Some second => leaves second
       | None => []
       end.

Definition is_some {A} (o : option A) : bool :=
  match o with
  | Some _ => true
  | None => false
  end.

(** A leaf has a control and a profile and no children; a split has two
    children, no control, no profile and is not marked last focused. *)
Definition node_ok (p : Pane) : bool :=
  if _IsLeaf p then
    negb (is_some (_firstChild p)) && negb (is_some (_secondChild p))
    && is_some (_control p) && is_some (_profile p)
  else
    is_some (_firstChild p) && is_some (_secondChild p)
    && negb (is_some (_control p)) && negb (is_some (_profile p))
    && negb (_lastFocused p).

Fixpoint wf (p : Pane) : bool :=
  node_ok p
  && match _firstChild p with
     | Some first => wf first
     | None => true
     end
  && match _secondChild p with
     | Some second => wf second
     | None => true
     end.

(** The number of leaves marked last focused. *)
Definition count_lastFocused (p : Pane) : nat :=
  length (filter _lastFocused (leaves p)).

(** The number of leaves whose control reports input focus. *)
Definition count_focus (focused : TermControl -> bool) (p : Pane) : nat :=
  length (filter (fun l => match _control l with
                           | Some c => focused c
                           | None => false
                           end) (leaves p)).

(** ** Reachable states of a tab *)

Section Reachability.

Variable lastFocused_default : bool.

(** What is assumed of the focus signal at the moment [CheckFocus] reads
    it. *)
Variable focus_discipline : (TermControl -> bool) -> Pane -> Prop.

Inductive reachable : Pane -> World -> Prop :=
| reach_new : forall profile control lastFocused w0 root w,
    Pane_new profile control lastFocused w0 = Some (root, w) ->
    reachable root w
| reach_SplitVertical : forall focused profile control root w root' w',
    reachable root w ->
    SplitVertical lastFocused_default focused profile control root w
      = Some (root', w') ->
    reachable root' w'
| reach_SplitHorizontal : forall focused profile control root w root' w',
    reachable root w ->
    SplitHorizontal lastFocused_default focused profile control root w
      = Some (root', w') ->
    reachable root' w'
| reach_CheckFocus : forall focused root w root' w',
    reachable root w ->
    focus_discipline focused root ->
    CheckFocus focused root w = Some (root', w') ->
    reachable root' w'
| reach_CheckUpdateSettings : forall settings profile root w root' w',
    reachable root w ->
    CheckUpdateSettings settings profile root w = Some (root', w') ->
    reachable root' w'
| reach_CloseChild : forall a closeFirst root w root' w',
    reachable root w ->
    at_pane a (_CloseChild closeFirst) root w = Some (root', w') ->
    reachable root' w'
| reach_ConnectionClosed : forall CloseOnExit c root w w',
    reachable root w ->
    signal_ConnectionClosed CloseOnExit root c w = Some (tt, w') ->
    reachable root w'
| reach_dispatch : forall root w root' w',
    reachable root w ->
    run_next_task root w = Some (root', w') ->
    reachable root' w'.

End Reachability.

(** Any focus signal. *)
Definition any_focus (focused : TermControl -> bool) (root : Pane) : Prop :=
  True.

(** At most one leaf of the tree holds a control that reports input focus. *)
Definition exclusive_focus (focused : TermControl -> bool) (root : Pane)
  : Prop :=
  count_focus focused root <= 1.

(** The first leaf, from left to right, that is marked last focused. *)
Definition first_lastFocused (p : Pane) : option Pane :=
  hd_error (filter _lastFocused (leaves p)).

(** The leaves whose profile is [profile], from left to right. *)
Definition matching_leaves (profile : GUID) (p : Pane) : list Pane :=
  filter (fun l => guid_eq_opt profile (_profile l)) (leaves p).

(** One [UpdateSettings] call on the control of each of the given leaves. *)
Definition updates (settings : TerminalSettings) (ls : list Pane)
  : list ControlCall :=
  flat_map (fun l => match _control l with
                     | Some c => [UpdateSettings c settings]
                     | None => []
                     end) ls.

(** The world after some more calls on controls. *)
Definition add_calls (xs : list ControlCall) (w : World) : World :=
  mkWorld (connectionClosed w) (dispatcher w) (calls w ++ xs)
          (next_token w) (next_pane w).

(** ** The result of splitting a leaf, written out

    [p] is the leaf, [c0] and [g0] its control and profile, [c1] and [g1] the
    new ones, [w] the world before the call. *)
Section SplitLeafResult.

Variables (d : bool) (state : SplitState.t) (g1 : GUID) (c1 : TermControl)
          (p : Pane) (c0 : TermControl) (g0 : GUID) (w : World).

Definition split_first : Pane :=
  mkPane (next_pane w) (Some c0) d (Some g0) SplitState.None None None
         (next_token w) 0 0
         [(S (S (next_token w)), mkClosedHandler (this p) true)].

Definition split_second : Pane :=
  mkPane (S (next_pane w)) (Some c1) d (Some g1) SplitState.None None None
         (S (next_token w)) 0 0
         [(S (S (S (next_token w))), mkClosedHandler (this p) false)].

Definition split_parent : Pane :=
  mkPane (this p) None false None state
         (Some split_first) (Some split_second)
         (_connectionClosedToken p)
         (S (S (next_token w))) (S (S (S (next_token w))))
         (_closedHandlers p).

Definition split_world : World :=
  mkWorld
    ((filter (fun s => negb ((fst s =? c0)
                             && (fst (snd s) =? _connectionClosedToken p)))
             (connectionClosed w)
      ++ [(c0, (next_token w, next_pane w))])
     ++ [(c1, (S (next_token w), S (next_pane w)))])
    (dispatcher w) (calls w)
    (S (S (S (S (next_token w))))) (S (S (next_pane w))).

End SplitLeafResult.

(** ** The result of closing a child, written out

    [p] is the split, [first] and [second] its children, [remaining] the one
    that is kept and [w] the world before the call. *)
Section CloseChildResult.

Variables (p first second remaining : Pane) (w : World).

(** The kept child is a leaf holding the control [c]. *)
Definition collapsed_leaf : Pane :=
  mkPane (this p) (_control remaining)
         (_lastFocused first || _lastFocused second)
         (_profile remaining) SplitState.None None None
         (next_token w) (_firstClosedToken p) (_secondClosedToken p)
         (_closedHandlers p).

Definition collapsed_leaf_world (c : TermControl) : World :=
  mkWorld (connectionClosed w ++ [(c, (next_token w, this p))])
          (dispatcher w)
          (calls w ++ if _lastFocused first || _lastFocused second
                      then [Focus c] else [])
          (S (next_token w)) (next_pane w).

(** The kept child is a split with children [rfirst] and [rsecond]. *)
Definition collapsed_split (rfirst rsecond : Pane) : Pane :=
  mkPane (this p) (_control p) (_lastFocused p) (_profile p)
         (_splitState remaining)
         (Some (set_closedHandlers
                  (_closedHandlers rfirst
                   ++ [(next_token w, mkClosedHandler (this p) true)])
                  rfirst))
         (Some (set_closedHandlers
                  (_closedHandlers rsecond
                   ++ [(S (next_token w), mkClosedHandler (this p) false)])
                  rsecond))
         (_connectionClosedToken p)
         (next_token w) (S (next_token w)) (_closedHandlers p).

Definition collapsed_split_world : World :=
  mkWorld (connectionClosed w) (dispatcher w) (calls w)
          (S (S (next_token w))) (next_pane w).

End CloseChildResult.

(** A method that keeps trees well formed and marks no new leaf. *)
Definition tame (f : Pane -> M Pane) : Prop :=
  forall q w q' w',
    wf q = true -> f q w = Some (q', w') ->
    wf q' = true /\ count_lastFocused q' <= count_lastFocused q.

(** Leaf and split are exclusive at the pane [n]: it is a leaf exactly when
    it has no child, and exactly when it holds a control. *)
Definition node_exclusive (n : Pane) : bool :=
  if _IsLeaf n then
    negb (is_some (_firstChild n)) && negb (is_some (_secondChild n))
    && is_some (_control n)
  else
    (is_some (_firstChild n) || is_some (_secondChild n))
    && negb (is_some (_control n)).

(** ... and at every pane of the tree. *)
Fixpoint exclusive (p : Pane) : bool :=
  node_exclusive p
  && match _firstChild p with
     | Some first => exclusive first
     | None => true
     end
  && match _secondChild p with
     | Some second => exclusive second
     | None => true
     end.

(** The same, as the three equivalences between being a leaf, having split
    state [None], having no child and holding a control. *)
Definition exclusive_at (n : Pane) : Prop :=
  (_IsLeaf n = true <-> _splitState n = SplitState.None) /\
  (_IsLeaf n = true <-> _firstChild n = None /\ _secondChild n = None) /\
  (_IsLeaf n = true <-> _control n <> None).

Definition Exclusive (p : Pane) : Prop :=
  forall n, In n (nodes p) -> exclusive_at n.

(** ** A session of one tab, step by step

    The states below are used as concrete inputs.  Controls are 10, 11 and
    12, profiles 7, 8 and 9. *)

Definition a_leaf (a : addr) (c : TermControl) (lf : bool) (g : GUID)
    (tok : event_token) (hs : list (event_token * ClosedHandler)) : Pane :=
  mkPane a (Some c) lf (Some g) SplitState.None None None tok 0 0 hs.

(** The tab is opened on control 10 with profile 7. *)
Definition tab0 : Pane := a_leaf 1 10 true 7 1 [].
Definition world0 : World := mkWorld [(10, (1, 1))] [] [] 2 2.

(** The root is split vertically for control 11 (constructor default
    [false]). *)
Definition tab1 : Pane :=
  mkPane 1 None false None SplitState.Vertical
         (Some (a_leaf 2 10 false 7 2 [(4, mkClosedHandler 1 true)]))
         (Some (a_leaf 3 11 false 8 3 [(5, mkClosedHandler 1 false)]))
         1 4 5 [].
Definition world1 : World :=
  mkWorld [(10, (2, 2)); (11, (3, 3))] [] [] 6 4.

(** The pane of control 11 has focus and is split horizontally for
    control 12. *)
Definition tab2 : Pane :=
  mkPane 1 None false None SplitState.Vertical
    (Some (a_leaf 2 10 false 7 2 [(4, mkClosedHandler 1 true)]))
    (Some (mkPane 3 None false None SplitState.Horizontal
             (Some (a_leaf 4 11 false 8 6 [(8, mkClosedHandler 3 true)]))
             (Some (a_leaf 5 12 false 9 7 [(9, mkClosedHandler 3 false)]))
             3 8 9 [(5, mkClosedHandler 1 false)]))
    1 4 5 [].
Definition world2 : World :=
  mkWorld [(10, (2, 2)); (11, (6, 4)); (12, (7, 5))] [] [] 10 6.

(** Control 10 closes: its pane raises Closed and the root is asked to close
    its first child. *)
Definition world3 : World :=
  mkWorld [(10, (2, 2)); (11, (6, 4)); (12, (7, 5))]
          [mkClosedHandler 1 true] [] 10 6.

(** The dispatcher runs the task: the root takes over the two panes of its
    second child. *)
Definition tab4 : Pane :=
  mkPane 1 None false None SplitState.Horizontal
    (Some (a_leaf 4 11 false 8 6 [(8, mkClosedHandler 3 true);
                                  (10, mkClosedHandler 1 true)]))
    (Some (a_leaf 5 12 false 9 7 [(9, mkClosedHandler 3 false);
                                  (11, mkClosedHandler 1 false)]))
    1 10 11 [].
Definition world4 : World :=
  mkWorld [(10, (2, 2)); (11, (6, 4)); (12, (7, 5))] [] [] 12 6.

Definition focus_on (c : TermControl) : TermControl -> bool :=
  fun c' => c' =? c.

Definition always : TermControl -> bool := fun _ => true.
Definition never : TermControl -> bool := fun _ => false.

(** [tab1] with chosen last-focused marks on the panes of controls 10
    and 11. *)
Definition tab1_marked (m10 m11 : bool) : Pane :=
  mkPane 1 None false None SplitState.Vertical
         (Some (a_leaf 2 10 m10 7 2 [(4, mkClosedHandler 1 true)]))
         (Some (a_leaf 3 11 m11 8 3 [(5, mkClosedHandler 1 false)]))
         1 4 5 [].

(** The tab opened without the last-focused mark. *)
Definition tab0_unmarked : Pane := a_leaf 1 10 false 7 1 [].

(** A split whose two leaves share profile 7. *)
Definition twins : Pane :=
  mkPane 1 None false None SplitState.Vertical
         (Some (a_leaf 2 10 false 7 2 [(4, mkClosedHandler 1 true)]))
         (Some (a_leaf 3 11 false 7 3 [(5, mkClosedHandler 1 false)]))
         1 4 5 [].

(** Control 11 closes after the root has taken over the panes of controls 11
    and 12: what the root's own delegate alone would queue, and the leaf the
    root would become. *)
Definition world5 : World :=
  mkWorld [(10, (2, 2)); (11, (6, 4)); (12, (7, 5))]
          [mkClosedHandler 1 true] [] 12 6.

Definition tab6 : Pane :=
  mkPane 1 (Some 12) false (Some 9) SplitState.None None None 12 10 11 [].

Definition world6 : World :=
  mkWorld [(10, (2, 2)); (11, (6, 4)); (12, (7, 5)); (12, (12, 1))]
          [] [] 13 6.

(** ** Sessions of a tree *)

(** Whether the control of the leaf [l] reports input focus. *)
Definition leaf_focus (focused : TermControl -> bool) (l : Pane) : bool :=
  match _control l with
  | Some c => focused c
  | None => false
  end.

(** The control and profile of every leaf, from left to right. *)
Definition sessions (p : Pane) : list (option TermControl * option GUID) :=
  map (fun l => (_control l, _profile l)) (leaves p).

(** [tab2] with the pane of control 10 marked last focused. *)
Definition tab2_marked10 : Pane :=
  set_firstChild (Some (a_leaf 2 10 true 7 2 [(4, mkClosedHandler 1 true)]))
                 tab2.

(** ** Subscriptions of a split to its children *)

(** The split [n] is subscribed to the Closed event of each of its two
    children under the token it keeps for that child, with the delegate that
    closes that child. *)
Definition node_wired (n : Pane) : Prop :=
  _IsLeaf n = false ->
  exists first second,
    _firstChild n = Some first /\ _secondChild n = Some second /\
    In (_firstClosedToken n, mkClosedHandler (this n) true)
       (_closedHandlers first) /\
    In (_secondClosedToken n, mkClosedHandler (this n) false)
       (_closedHandlers second).

Definition Wired (p : Pane) : Prop :=
  forall n, In n (nodes p) -> node_wired n.

(** A method that keeps a tree well formed and wired, and keeps the address
    and the Closed subscribers of the pane it is called on. *)
Definition polite (f : Pane -> M Pane) : Prop :=
  forall q w q' w',
    wf q = true -> Wired q -> f q w = Some (q', w') ->
    wf q' = true /\ Wired q' /\
    this q' = this q /\ _closedHandlers q' = _closedHandlers q.

(** * Proofs *)

(** ** Induction on the tree *)

Section PaneInduction.

Variable P : Pane -> Prop.

Hypothesis P_node : forall p,
  (forall first, _firstChild p = Some first -> P first) ->
  (forall second, _secondChild p = Some second -> P second) ->
  P p.

Lemma Pane_induction : forall p, P p.
Proof.
  fix IH 1.
  intros [a c lf pr ss first second t0 t1 t2 hs].
  apply P_node; simpl.
  - destruct first as [x|]; intros y e; [|discriminate].
    assert (E : x = y) by congruence. rewrite <- E. apply IH.
  - destruct second as [x|]; intros y e; [|discriminate].
    assert (E : x = y) by congruence. rewrite <- E. apply IH.
Qed.

End PaneInduction.

(** ** Equations of the recursive definitions *)

Lemma wf_eq p :
  wf p = node_ok p
         && match _firstChild p with Some first => wf first | None => true end
         && match _secondChild p with Some second => wf second | None => true end.
Proof. destruct p; reflexivity. Qed.

Lemma leaves_eq p :
  leaves p =
  if _IsLeaf p then [p]
  else match _firstChild p with Some first => leaves first | None => [] end
       ++ match _secondChild p with Some second => leaves second | None => [] end.
Proof. destruct p; reflexivity. Qed.

Lemma nodes_eq p :
  nodes p =
  p :: match _firstChild p with Some first => nodes first | None => [] end
    ++ match _secondChild p with Some second => nodes second | None => [] end.
Proof. destruct p; reflexivity. Qed.

Lemma GetLastFocusedTerminalControl_eq p :
  GetLastFocusedTerminalControl p =
  if _IsLeaf p then Some (if _lastFocused p then _control p else None)
  else match _firstChild p with
       | None => None
       | Some first =>
           match GetLastFocusedTerminalControl first with
           | None => None
           | Some (Some firstFocused) => Some (Some firstFocused)
           | Some None =>
               match _secondChild p with
               | None => None
               | Some second => GetLastFocusedTerminalControl second
               end
           end
       end.
Proof. destruct p; reflexivity. Qed.

Lemma GetLastFocusedProfile_eq p :
  GetLastFocusedProfile p =
  if _IsLeaf p then Some (if _lastFocused p then _profile p else None)
  else match _firstChild p with
       | None => None
       | Some first =>
           match GetLastFocusedProfile first with
           | None => None
           | Some (Some firstFocused) => Some (Some firstFocused)
           | Some None =>
               match _secondChild p with
               | None => None
               | Some second => GetLastFocusedProfile second
               end
           end
       end.
Proof. destruct p; reflexivity. Qed.

(** ** Well-formed trees *)

Lemma wf_leaf p :
  wf p = true -> _IsLeaf p = true ->
  _firstChild p = None /\ _secondChild p = None /\
  (exists c, _control p = Some c) /\ (exists g, _profile p = Some g).
Proof.
  rewrite wf_eq. unfold node_ok. intros H L. rewrite L in H.
  destruct (_firstChild p), (_secondChild p), (_control p), (_profile p);
    simpl in H; try discriminate; repeat split; eauto.
Qed.

Lemma wf_split p :
  wf p = true -> _IsLeaf p = false ->
  (exists first second,
      _firstChild p = Some first /\ _secondChild p = Some second /\
      wf first = true /\ wf second = true) /\
  _control p = None /\ _profile p = None /\ _lastFocused p = false.
Proof.
  rewrite wf_eq. unfold node_ok. intros H L. rewrite L in H.
  destruct (_firstChild p) as [f|], (_secondChild p) as [s|],
    (_control p), (_profile p), (_lastFocused p);
    simpl in H; try discriminate.
  apply andb_prop in H. destruct H as [Hf Hs].
  split; [exists f, s|]; repeat split; assumption.
Qed.

Lemma leaves_are_leaves p :
  wf p = true ->
  forall l, In l (leaves p) -> wf l = true /\ _IsLeaf l = true.
Proof.
  induction p as [p IHf IHs] using Pane_induction. intros W l.
  rewrite leaves_eq. destruct (_IsLeaf p) eqn:L.
  - intros [<-|[]]. auto.
  - destruct (wf_split p W L) as [(f & s & Ef & Es & Wf & Ws) _].
    rewrite Ef, Es. intros H. apply in_app_or in H. destruct H; eauto.
Qed.

Lemma leaf_has_control p l :
  wf p = true -> In l (leaves p) -> exists c, _control l = Some c.
Proof.
  intros W H. destruct (leaves_are_leaves p W l H) as [Wl Ll].
  apply (wf_leaf l Wl Ll).
Qed.

Lemma leaf_has_profile p l :
  wf p = true -> In l (leaves p) -> exists g, _profile l = Some g.
Proof.
  intros W H. destruct (leaves_are_leaves p W l H) as [Wl Ll].
  apply (wf_leaf l Wl Ll).
Qed.

(** ** Last-focused queries *)

Lemma first_lastFocused_split p first second :
  _IsLeaf p = false ->
  _firstChild p = Some first -> _secondChild p = Some second ->
  first_lastFocused p =
  match first_lastFocused first with
  | Some l => Some l
  | None => first_lastFocused second
  end.
Proof.
  intros L Ef Es. unfold first_lastFocused.
  rewrite (leaves_eq p), L, Ef, Es, filter_app.
  destruct (filter _lastFocused (leaves first)); reflexivity.
Qed.

Lemma first_lastFocused_in p l :
  first_lastFocused p = Some l -> In l (leaves p) /\ _lastFocused l = true.
Proof.
  unfold first_lastFocused. intros H.
  destruct (filter _lastFocused (leaves p)) as [|x xs] eqn:E; [discriminate|].
  injection H as ->. apply filter_In. rewrite E. left. reflexivity.
Qed.

Lemma GetLastFocusedTerminalControl_spec p :
  wf p = true ->
  GetLastFocusedTerminalControl p =
  Some (match first_lastFocused p with
        | Some l => _control l
        | None => None
        end).
Proof.
  induction p as [p IHf IHs] using Pane_induction. intros W.
  rewrite GetLastFocusedTerminalControl_eq. destruct (_IsLeaf p) eqn:L.
  - unfold first_lastFocused. rewrite leaves_eq, L. simpl.
    destruct (_lastFocused p); reflexivity.
  - destruct (wf_split p W L) as [(f & s & Ef & Es & Wf & Ws) _].
    rewrite (first_lastFocused_split p L Ef Es), Ef, Es.
    rewrite (IHf f Ef Wf), (IHs s Es Ws).
    destruct (first_lastFocused f) as [l|] eqn:E; [|reflexivity].
    destruct (first_lastFocused_in f E) as [Hin _].
    destruct (leaf_has_control f l Wf Hin) as [c ->]. reflexivity.
Qed.

Lemma GetLastFocusedProfile_spec p :
  wf p = true ->
  GetLastFocusedProfile p =
  Some (match first_lastFocused p with
        | Some l => _profile l
        | None => None
        end).
Proof.
  induction p as [p IHf IHs] using Pane_induction. intros W.
  rewrite GetLastFocusedProfile_eq. destruct (_IsLeaf p) eqn:L.
  - unfold first_lastFocused. rewrite leaves_eq, L. simpl.
    destruct (_lastFocused p); reflexivity.
  - destruct (wf_split p W L) as [(f & s & Ef & Es & Wf & Ws) _].
    rewrite (first_lastFocused_split p L Ef Es), Ef, Es.
    rewrite (IHf f Ef Wf), (IHs s Es Ws).
    destruct (first_lastFocused f) as [l|] eqn:E; [|reflexivity].
    destruct (first_lastFocused_in f E) as [Hin _].
    destruct (leaf_has_profile f l Wf Hin) as [g ->]. reflexivity.
Qed.

(** ** Record bookkeeping *)

Lemma set_firstChild_same p first :
  _firstChild p = Some first -> set_firstChild (Some first) p = p.
Proof. destruct p; simpl; intros ->; reflexivity. Qed.

Lemma set_secondChild_same p second :
  _secondChild p = Some second -> set_secondChild (Some second) p = p.
Proof. destruct p; simpl; intros ->; reflexivity. Qed.

Lemma add_calls_nil w : add_calls [] w = w.
Proof. destruct w; unfold add_calls; simpl; rewrite app_nil_r; reflexivity. Qed.

Lemma add_calls_app xs ys w :
  add_calls ys (add_calls xs w) = add_calls (xs ++ ys) w.
Proof. unfold add_calls; simpl; rewrite app_assoc; reflexivity. Qed.

Lemma CheckUpdateSettings_eq settings profile p :
  CheckUpdateSettings settings profile p =
  if negb (_IsLeaf p) then
    match _firstChild p with
    | None => crash
    | Some first =>
        first' <- CheckUpdateSettings settings profile first ;;
        let p := set_firstChild (Some first') p in
        match _secondChild p with
        | None => crash
        | Some second =>
            second' <- CheckUpdateSettings settings profile second ;;
            ret (set_secondChild (Some second') p)
        end
    end
  else
    if guid_eq_opt profile (_profile p) then
      c <- deref (_control p) ;;
      call (UpdateSettings c settings) ;;;
      ret p
    else ret p.
Proof. destruct p; reflexivity. Qed.

Lemma matching_leaves_split profile p first second :
  _IsLeaf p = false ->
  _firstChild p = Some first -> _secondChild p = Some second ->
  matching_leaves profile p =
  matching_leaves profile first ++ matching_leaves profile second.
Proof.
  intros L Ef Es. unfold matching_leaves.
  rewrite (leaves_eq p), L, Ef, Es. apply filter_app.
Qed.

(** ** Settings propagation *)

Lemma CheckUpdateSettings_spec settings profile p :
  wf p = true ->
  forall w,
    CheckUpdateSettings settings profile p w =
    Some (p, add_calls (updates settings (matching_leaves profile p)) w).
Proof.
  induction p as [p IHf IHs] using Pane_induction. intros W w.
  rewrite CheckUpdateSettings_eq. destruct (_IsLeaf p) eqn:L; simpl.
  - unfold matching_leaves. rewrite leaves_eq, L. simpl.
    destruct (guid_eq_opt profile (_profile p)); simpl.
    + destruct (wf_leaf p W L) as (_ & _ & [c Ec] & _). rewrite Ec.
      unfold bind, deref, ret, call, add_calls. simpl. reflexivity.
    + unfold ret. rewrite add_calls_nil. reflexivity.
  - destruct (wf_split p W L) as [(f & s & Ef & Es & Wf & Ws) _].
    rewrite Ef. unfold bind at 1. rewrite (IHf f Ef Wf).
    rewrite (set_firstChild_same p Ef), Es.
    unfold bind. rewrite (IHs s Es Ws). unfold ret.
    rewrite (set_secondChild_same p Es), add_calls_app.
    rewrite (matching_leaves_split profile p L Ef Es).
    unfold updates. rewrite flat_map_app. reflexivity.
Qed.

Lemma updates_one_per_leaf settings p ls :
  wf p = true -> incl ls (leaves p) ->
  Forall2 (fun l x => exists c, _control l = Some c /\
                                x = UpdateSettings c settings)
          ls (updates settings ls).
Proof.
  intros W. induction ls as [|l ls IH]; intros Hin; simpl.
  - constructor.
  - destruct (leaf_has_control p l W (Hin l (or_introl eq_refl))) as [c Ec].
    rewrite Ec. simpl. constructor.
    + exists c. auto.
    + apply IH. intros x Hx. apply Hin. right. exact Hx.
Qed.

(** ** Split *)

Lemma Split_eq d focused state profile control p :
  Split_ d focused state profile control p =
  if negb (_IsLeaf p) then
    match _firstChild p with
    | None => crash
    | Some first =>
        if _HasFocusedChild focused first then
          first' <- Split_ d focused state profile control first ;;
          ret (set_firstChild (Some first') p)
        else
          match _secondChild p with
          | None => crash
          | Some second =>
              if _HasFocusedChild focused second then
                second' <- Split_ d focused state profile control second ;;
                ret (set_secondChild (Some second') p)
              else ret p
          end
    end
  else
    c <- deref (_control p) ;;
    ConnectionClosed_revoke c (_connectionClosedToken p) ;;;
    let p := set_splitState state p in
    g <- deref (_profile p) ;;
    first <- Pane_new g (_control p) d ;;
    let p := set_firstChild (Some first) p in
    let p := set_profile None p in
    let p := set_control None p in
    second <- Pane_new profile control d ;;
    let p := set_secondChild (Some second) p in
    p <- _SetupChildCloseHandlers p ;;
    ret (set_lastFocused false p).
Proof. destruct p; reflexivity. Qed.

Lemma Split_leaf d focused state g1 c1 p c0 g0 w :
  _IsLeaf p = true -> _control p = Some c0 -> _profile p = Some g0 ->
  Split_ d focused state g1 (Some c1) p w =
  Some (split_parent d state g1 c1 p c0 g0 w,
        split_world c1 p c0 w).
Proof.
  intros L Ec Eg. rewrite Split_eq, L. simpl.
  destruct p; simpl in *. subst. reflexivity.
Qed.

Lemma Split_leaf_null d focused state g1 p w :
  _IsLeaf p = true ->
  Split_ d focused state g1 None p w = None.
Proof.
  intros L. rewrite Split_eq, L. simpl.
  destruct p as [a c lf pr ss f s t0 t1 t2 hs]; simpl in *.
  destruct c, pr; reflexivity.
Qed.

Lemma count_lastFocused_leaf p :
  _IsLeaf p = true ->
  count_lastFocused p = if _lastFocused p then 1 else 0.
Proof.
  intros L. unfold count_lastFocused. rewrite leaves_eq, L. simpl.
  destruct (_lastFocused p); reflexivity.
Qed.

Lemma count_lastFocused_split p first second :
  _IsLeaf p = false ->
  _firstChild p = Some first -> _secondChild p = Some second ->
  count_lastFocused p = count_lastFocused first + count_lastFocused second.
Proof.
  intros L Ef Es. unfold count_lastFocused.
  rewrite (leaves_eq p), L, Ef, Es, filter_app, length_app. reflexivity.
Qed.

Lemma count_focus_leaf focused p :
  _IsLeaf p = true ->
  count_focus focused p =
  if match _control p with Some c => focused c | None => false end
  then 1 else 0.
Proof.
  intros L. unfold count_focus. rewrite leaves_eq, L. simpl.
  destruct (_control p) as [c|]; [destruct (focused c)|]; reflexivity.
Qed.

Lemma count_focus_split focused p first second :
  _IsLeaf p = false ->
  _firstChild p = Some first -> _secondChild p = Some second ->
  count_focus focused p = count_focus focused first + count_focus focused second.
Proof.
  intros L Ef Es. unfold count_focus.
  rewrite (leaves_eq p), L, Ef, Es, filter_app, length_app. reflexivity.
Qed.

(** Replacing a child of a split by a well-formed tree. *)
Lemma wf_set_firstChild p first' :
  wf p = true -> _IsLeaf p = false -> wf first' = true ->
  wf (set_firstChild (Some first') p) = true.
Proof.
  intros W L Wf. destruct (wf_split p W L) as [(f & s & Ef & Es & _ & Ws) _].
  rewrite wf_eq in W. rewrite wf_eq.
  apply andb_prop in W. destruct W as [W _].
  apply andb_prop in W. destruct W as [W _].
  destruct p; unfold node_ok, _IsLeaf in *; simpl in *.
  subst. rewrite L in *. simpl in *. rewrite Wf, Ws, W. reflexivity.
Qed.

Lemma wf_set_secondChild p second' :
  wf p = true -> _IsLeaf p = false -> wf second' = true ->
  wf (set_secondChild (Some second') p) = true.
Proof.
  intros W L Ws. destruct (wf_split p W L) as [(f & s & Ef & Es & Wf & _) _].
  rewrite wf_eq in W. rewrite wf_eq.
  apply andb_prop in W. destruct W as [W _].
  apply andb_prop in W. destruct W as [W _].
  destruct p; unfold node_ok, _IsLeaf in *; simpl in *.
  subst. rewrite L in *. simpl in *. rewrite Wf, Ws, W. reflexivity.
Qed.

Lemma count_set_firstChild p first' second :
  _IsLeaf p = false -> _secondChild p = Some second ->
  count_lastFocused (set_firstChild (Some first') p) =
  count_lastFocused first' + count_lastFocused second.
Proof.
  intros L Es. apply count_lastFocused_split; destruct p; assumption || reflexivity.
Qed.

Lemma count_set_secondChild p first second' :
  _IsLeaf p = false -> _firstChild p = Some first ->
  count_lastFocused (set_secondChild (Some second') p) =
  count_lastFocused first + count_lastFocused second'.
Proof.
  intros L Ef. apply count_lastFocused_split; destruct p; assumption || reflexivity.
Qed.

Lemma wf_split_parent d state g1 c1 p c0 g0 w :
  state <> SplitState.None ->
  wf (split_parent d state g1 c1 p c0 g0 w) = true.
Proof. destruct state; [congruence | reflexivity | reflexivity]. Qed.

Lemma count_split_parent d state g1 c1 p c0 g0 w :
  state <> SplitState.None ->
  count_lastFocused (split_parent d state g1 c1 p c0 g0 w) =
  if d then 2 else 0.
Proof. destruct state, d; try congruence; reflexivity. Qed.

(** A split keeps a tree well formed, and with a constructor default of
    [false] it marks no new leaf. *)
Lemma Split_wf d focused state profile control :
  state <> SplitState.None ->
  forall p, wf p = true ->
  forall w p' w',
    Split_ d focused state profile control p w = Some (p', w') ->
    wf p' = true /\
    (d = false -> count_lastFocused p' <= count_lastFocused p).
Proof.
  intros Hs. induction p as [p IHf IHs] using Pane_induction.
  intros W w p' w' H. destruct (_IsLeaf p) eqn:L.
  - destruct control as [c1|]; [|rewrite Split_leaf_null in H; congruence].
    destruct (wf_leaf p W L) as (_ & _ & [c0 Ec] & [g0 Eg]).
    rewrite (Split_leaf d focused state profile c1 p w L Ec Eg) in H.
    injection H as <- <-. split.
    + apply wf_split_parent, Hs.
    + intros ->. rewrite count_split_parent by exact Hs. lia.
  - destruct (wf_split p W L) as [(f & s & Ef & Es & Wf & Ws) _].
    rewrite Split_eq, L, Ef, Es in H. simpl in H.
    destruct (_HasFocusedChild focused f).
    + unfold bind in H.
      destruct (Split_ d focused state profile control f w)
        as [[f' w1]|] eqn:E; [|discriminate].
      injection H as <- <-.
      destruct (IHf f Ef Wf _ _ _ E) as [Wf' Cf]. split.
      * apply wf_set_firstChild; assumption.
      * intros Hd. rewrite (count_set_firstChild p f' L Es).
        rewrite (count_lastFocused_split p L Ef Es). specialize (Cf Hd). lia.
    + destruct (_HasFocusedChild focused s).
      * unfold bind in H.
        destruct (Split_ d focused state profile control s w)
          as [[s' w1]|] eqn:E; [|discriminate].
        injection H as <- <-.
        destruct (IHs s Es Ws _ _ _ E) as [Ws' Cs]. split.
        -- apply wf_set_secondChild; assumption.
        -- intros Hd. rewrite (count_set_secondChild p s' L Ef).
           rewrite (count_lastFocused_split p L Ef Es). specialize (Cs Hd). lia.
      * injection H as <- <-. split; [assumption | lia].
Qed.

(** ** Focus refresh *)

Lemma CheckFocus_eq focused p :
  CheckFocus focused p =
  if _IsLeaf p then
    let controlFocused :=
      match _control p with
      | Some c => focused c
      | None => false
      end in
    ret (set_lastFocused controlFocused p)
  else
    let p := set_lastFocused false p in
    match _firstChild p with
    | None => crash
    | Some first =>
        first' <- CheckFocus focused first ;;
        let p := set_firstChild (Some first') p in
        match _secondChild p with
        | None => crash
        | Some second =>
            second' <- CheckFocus focused second ;;
            ret (set_secondChild (Some second') p)
        end
    end.
Proof. destruct p; reflexivity. Qed.

Lemma set_lastFocused_same p b :
  _lastFocused p = b -> set_lastFocused b p = p.
Proof. destruct p; simpl; intros ->; reflexivity. Qed.

Lemma wf_set_lastFocused_leaf p b :
  wf p = true -> _IsLeaf p = true -> wf (set_lastFocused b p) = true.
Proof.
  intros W L. rewrite wf_eq in W. rewrite wf_eq.
  destruct p; unfold node_ok, _IsLeaf in *; simpl in *.
  rewrite L in *. exact W.
Qed.

(** After a refresh the marked leaves are the leaves whose control reports
    focus; the world is not touched. *)
Lemma CheckFocus_spec focused p :
  wf p = true ->
  forall w, exists p',
    CheckFocus focused p w = Some (p', w) /\
    wf p' = true /\
    _IsLeaf p' = _IsLeaf p /\
    count_lastFocused p' = count_focus focused p.
Proof.
  induction p as [p IHf IHs] using Pane_induction. intros W w.
  rewrite CheckFocus_eq. destruct (_IsLeaf p) eqn:L.
  - cbv zeta. unfold ret. eexists. split; [reflexivity|]. split; [|split].
    + apply wf_set_lastFocused_leaf; assumption.
    + destruct p; exact L.
    + rewrite count_focus_leaf by exact L.
      rewrite count_lastFocused_leaf by (destruct p; exact L).
      destruct p; reflexivity.
  - destruct (wf_split p W L) as [(f & s & Ef & Es & Wf & Ws) (_ & _ & Hl)].
    cbv zeta. rewrite (set_lastFocused_same p Hl), Ef.
    destruct (IHf f Ef Wf w) as (f' & Hf & Wf' & Lf & Cf).
    destruct (IHs s Es Ws w) as (s' & Hs & Ws' & Ls & Cs).
    unfold bind at 1. rewrite Hf.
    assert (Es' : _secondChild (set_firstChild (Some f') p) = Some s)
      by (destruct p; exact Es).
    rewrite Es'. unfold bind. rewrite Hs.
    eexists. split; [reflexivity|].
    assert (L' : _IsLeaf (set_firstChild (Some f') p) = false)
      by (destruct p; exact L).
    split; [|split].
    + apply wf_set_secondChild; [apply wf_set_firstChild| |]; assumption.
    + destruct p; exact L.
    + rewrite (@count_set_secondChild _ f' s' L') by (destruct p; reflexivity).
      rewrite (count_focus_split focused p L Ef Es). congruence.
Qed.

(** ** Close / collapse *)

Lemma wf_set_closedHandlers hs q : wf (set_closedHandlers hs q) = wf q.
Proof. destruct q; reflexivity. Qed.

Lemma count_set_closedHandlers hs q :
  count_lastFocused (set_closedHandlers hs q) = count_lastFocused q.
Proof.
  unfold count_lastFocused. destruct q as [a c lf pr ss f s t0 t1 t2 h].
  destruct ss, lf; reflexivity.
Qed.

Lemma Closed_add_eq q h w :
  Closed_add q h w =
  Some ((next_token w,
         set_closedHandlers (_closedHandlers q ++ [(next_token w, h)]) q),
        mkWorld (connectionClosed w) (dispatcher w) (calls w)
                (S (next_token w)) (next_pane w)).
Proof. reflexivity. Qed.

Lemma SetupChildCloseHandlers_eq p first second w :
  _firstChild p = Some first -> _secondChild p = Some second ->
  _SetupChildCloseHandlers p w =
  Some (mkPane (this p) (_control p) (_lastFocused p) (_profile p)
               (_splitState p)
               (Some (set_closedHandlers
                        (_closedHandlers first
                         ++ [(next_token w, mkClosedHandler (this p) true)])
                        first))
               (Some (set_closedHandlers
                        (_closedHandlers second
                         ++ [(S (next_token w),
                              mkClosedHandler (this p) false)])
                        second))
               (_connectionClosedToken p)
               (next_token w) (S (next_token w)) (_closedHandlers p),
        mkWorld (connectionClosed w) (dispatcher w) (calls w)
                (S (S (next_token w))) (next_pane w)).
Proof. destruct p; simpl; intros -> ->; reflexivity. Qed.

Lemma CloseChild_leaf (closeFirst : bool) p first second c w :
  _firstChild p = Some first -> _secondChild p = Some second ->
  _IsLeaf (if closeFirst then second else first) = true ->
  _control (if closeFirst then second else first) = Some c ->
  _CloseChild closeFirst p w =
  Some (collapsed_leaf p first second (if closeFirst then second else first) w,
        collapsed_leaf_world p first second w c).
Proof.
  intros Ef Es L Ec. unfold _CloseChild.
  destruct p as [a pc lf pr ss f s t0 t1 t2 hs]. simpl in Ef, Es. subst f s.
  destruct closeFirst; simpl; unfold bind at 1; simpl; rewrite L;
    unfold collapsed_leaf, collapsed_leaf_world, bind, ret, deref,
      _AddControlToRoot, ConnectionClosed_add, fresh_token, call;
    simpl; rewrite Ec; simpl;
    destruct (_lastFocused first || _lastFocused second); simpl;
    try rewrite app_nil_r; reflexivity.
Qed.

Lemma CloseChild_split (closeFirst : bool) p first second rfirst rsecond w :
  _firstChild p = Some first -> _secondChild p = Some second ->
  _IsLeaf (if closeFirst then second else first) = false ->
  _firstChild (if closeFirst then second else first) = Some rfirst ->
  _secondChild (if closeFirst then second else first) = Some rsecond ->
  _CloseChild closeFirst p w =
  Some (collapsed_split p (if closeFirst then second else first) w
                        rfirst rsecond,
        collapsed_split_world w).
Proof.
  intros Ef Es L Erf Ers. unfold _CloseChild.
  destruct p as [a pc lf pr ss f s t0 t1 t2 hs]. simpl in Ef, Es. subst f s.
  destruct closeFirst; simpl; unfold bind at 1; simpl; rewrite L;
    unfold revoke_old_handlers, bind, ret, deref; simpl;
    [destruct second | destruct first]; simpl in *; subst; reflexivity.
Qed.

Lemma CloseChild_on_leaf (closeFirst : bool) p w :
  wf p = true -> _IsLeaf p = true -> _CloseChild closeFirst p w = None.
Proof.
  intros W L. destruct (wf_leaf p W L) as (Ef & Es & _).
  unfold _CloseChild. rewrite Ef, Es. destruct closeFirst; reflexivity.
Qed.

Lemma own_mark_le_count x :
  wf x = true ->
  (if _lastFocused x then 1 else 0) <= count_lastFocused x.
Proof.
  intros W. destruct (_IsLeaf x) eqn:L.
  - rewrite count_lastFocused_leaf by exact L. lia.
  - destruct (wf_split x W L) as (_ & _ & _ & ->). lia.
Qed.

Lemma wf_collapsed_leaf p first second remaining w :
  wf remaining = true -> _IsLeaf remaining = true ->
  wf (collapsed_leaf p first second remaining w) = true.
Proof.
  intros W L. destruct (wf_leaf remaining W L) as (_ & _ & [c Ec] & [g Eg]).
  unfold collapsed_leaf. rewrite Ec, Eg. reflexivity.
Qed.

Lemma wf_collapsed_split p remaining w rfirst rsecond :
  wf p = true -> _IsLeaf p = false ->
  _IsLeaf remaining = false ->
  wf rfirst = true -> wf rsecond = true ->
  wf (collapsed_split p remaining w rfirst rsecond) = true.
Proof.
  intros W L Lr Wf Ws. destruct (wf_split p W L) as (_ & Ec & Eg & El).
  rewrite wf_eq. unfold collapsed_split. cbn [_firstChild _secondChild].
  rewrite !wf_set_closedHandlers, Wf, Ws.
  unfold node_ok, _IsLeaf in *. simpl.
  rewrite Lr, Ec, Eg, El. reflexivity.
Qed.

Lemma count_collapsed_split p remaining w rfirst rsecond :
  _IsLeaf remaining = false ->
  _firstChild remaining = Some rfirst -> _secondChild remaining = Some rsecond ->
  count_lastFocused (collapsed_split p remaining w rfirst rsecond) =
  count_lastFocused remaining.
Proof.
  intros Lr Ef Es.
  rewrite (count_lastFocused_split remaining Lr Ef Es).
  erewrite count_lastFocused_split;
    [ | exact Lr | reflexivity | reflexivity ].
  rewrite !count_set_closedHandlers. reflexivity.
Qed.

(** Closing a child of a well-formed split always succeeds, keeps the tree
    well formed and marks no new leaf. *)
Lemma CloseChild_wf (closeFirst : bool) p w :
  wf p = true -> _IsLeaf p = false ->
  exists p' w',
    _CloseChild closeFirst p w = Some (p', w') /\
    wf p' = true /\
    count_lastFocused p' <= count_lastFocused p.
Proof.
  intros W L.
  destruct (wf_split p W L) as [(f & s & Ef & Es & Wf & Ws) _].
  assert (Wr : wf (if closeFirst then s else f) = true)
    by (destruct closeFirst; assumption).
  assert (Hr : count_lastFocused (if closeFirst then s else f)
               <= count_lastFocused p)
    by (rewrite (count_lastFocused_split p L Ef Es); destruct closeFirst; lia).
  destruct (_IsLeaf (if closeFirst then s else f)) eqn:Lr.
  - destruct (wf_leaf _ Wr Lr) as (_ & _ & [c Ec] & _).
    rewrite (CloseChild_leaf closeFirst p w Ef Es Lr Ec).
    do 2 eexists. split; [reflexivity|]. split.
    + apply wf_collapsed_leaf; assumption.
    + rewrite count_lastFocused_leaf by reflexivity.
      rewrite (count_lastFocused_split p L Ef Es).
      pose proof (own_mark_le_count f Wf). pose proof (own_mark_le_count s Ws).
      unfold collapsed_leaf. simpl.
      destruct (_lastFocused f), (_lastFocused s); simpl in *; lia.
  - destruct (wf_split _ Wr Lr) as [(rf & rs & Erf & Ers & Wrf & Wrs) _].
    rewrite (CloseChild_split closeFirst p w Ef Es Lr Erf Ers).
    do 2 eexists. split; [reflexivity|]. split.
    + apply wf_collapsed_split; assumption.
    + rewrite (@count_collapsed_split p _ w _ _ Lr Erf Ers). exact Hr.
Qed.

Lemma CloseChild_tame (closeFirst : bool) : tame (_CloseChild closeFirst).
Proof.
  intros q w q' w' W H. destruct (_IsLeaf q) eqn:L.
  - rewrite CloseChild_on_leaf in H by assumption. discriminate.
  - destruct (CloseChild_wf closeFirst q w W L) as (p1 & w1 & E & HW & HC).
    rewrite E in H. injection H as <- <-. auto.
Qed.

Lemma at_pane_eq a f p :
  at_pane a f p =
  if this p =? a then f p
  else
    match _firstChild p with
    | Some first =>
        match find_pane a first with
        | Some _ =>
            first' <- at_pane a f first ;;
            ret (set_firstChild (Some first') p)
        | None =>
            match _secondChild p with
            | Some second =>
                second' <- at_pane a f second ;;
                ret (set_secondChild (Some second') p)
            | None => crash
            end
        end
    | None =>
        match _secondChild p with
        | Some second =>
            second' <- at_pane a f second ;;
            ret (set_secondChild (Some second') p)
        | None => crash
        end
    end.
Proof. destruct p; reflexivity. Qed.

Lemma at_pane_tame a f : tame f -> tame (at_pane a f).
Proof.
  intros Hf q. induction q as [q IHf IHs] using Pane_induction.
  intros w q' w' W H. rewrite at_pane_eq in H.
  destruct (this q =? a); [exact (Hf _ _ _ _ W H)|].
  destruct (_IsLeaf q) eqn:L.
  - destruct (wf_leaf q W L) as (Ef & Es & _).
    rewrite Ef, Es in H. discriminate.
  - destruct (wf_split q W L) as [(x & y & Ef & Es & Wx & Wy) _].
    rewrite Ef, Es in H. rewrite (count_lastFocused_split q L Ef Es).
    destruct (find_pane a x).
    + unfold bind in H.
      destruct (at_pane a f x w) as [[x' w1]|] eqn:E; [|discriminate].
      injection H as <- <-. destruct (IHf x Ef _ _ _ Wx E) as [Wx' Cx].
      split; [apply wf_set_firstChild; assumption|].
      rewrite (count_set_firstChild q x' L Es). lia.
    + unfold bind in H.
      destruct (at_pane a f y w) as [[y' w1]|] eqn:E; [|discriminate].
      injection H as <- <-. destruct (IHs y Es _ _ _ Wy E) as [Wy' Cy].
      split; [apply wf_set_secondChild; assumption|].
      rewrite (count_set_secondChild q y' L Ef). lia.
Qed.

(** ** The example session *)

Lemma session_open : Pane_new 7 (Some 10) true World0 = Some (tab0, world0).
Proof. reflexivity. Qed.

Lemma session_split1 :
  SplitVertical false (focus_on 10) 8 (Some 11) tab0 world0
  = Some (tab1, world1).
Proof. reflexivity. Qed.

Lemma session_split2 :
  SplitHorizontal false (focus_on 11) 9 (Some 12) tab1 world1
  = Some (tab2, world2).
Proof. reflexivity. Qed.

Lemma session_close10 :
  signal_ConnectionClosed always tab2 10 world2 = Some (tt, world3).
Proof. reflexivity. Qed.

Lemma session_dispatch : run_next_task tab2 world3 = Some (tab4, world4).
Proof. reflexivity. Qed.

(** ** Invariants of the reachable states *)

Lemma Pane_new_leaf profile control lastFocused w0 root w :
  Pane_new profile control lastFocused w0 = Some (root, w) ->
  wf root = true /\ _IsLeaf root = true.
Proof.
  destruct control as [c|]; [|discriminate].
  intros H. injection H as <- <-. split; reflexivity.
Qed.

Lemma run_next_task_tame root w root' w' :
  wf root = true -> run_next_task root w = Some (root', w') ->
  wf root' = true /\ count_lastFocused root' <= count_lastFocused root.
Proof.
  unfold run_next_task. intros W H.
  destruct (dispatcher w) as [|task rest]; [discriminate|].
  eapply (at_pane_tame (owner task) (CloseChild_tame (closeFirst task)));
    eassumption.
Qed.

Lemma reachable_inv d discipline root w :
  reachable d discipline root w ->
  wf root = true /\
  (d = false ->
   (forall focused p, discipline focused p -> count_focus focused p <= 1) ->
   count_lastFocused root <= 1).
Proof.
  induction 1 as
    [ g c lf w0 root w Hnew
    | focused g c root w root' w' _ [W C] Hop
    | focused g c root w root' w' _ [W C] Hop
    | focused root w root' w' _ [W C] Hd Hop
    | settings g root w root' w' _ [W C] Hop
    | a b root w root' w' _ [W C] Hop
    | coe c root w w' _ [W C] Hop
    | root w root' w' _ [W C] Hop ].
  - destruct (@Pane_new_leaf g c lf w0 root w Hnew) as [W L]. split; [exact W|].
    intros _ _. rewrite count_lastFocused_leaf by exact L.
    destruct (_lastFocused root); lia.
  - assert (Hs : SplitState.Vertical <> SplitState.None) by discriminate.
    destruct (@Split_wf d focused _ g c Hs root W w root' w' Hop) as [W' C'].
    split; [exact W'|].
    intros Hd Hdisc. specialize (C Hd Hdisc). specialize (C' Hd). lia.
  - assert (Hs : SplitState.Horizontal <> SplitState.None) by discriminate.
    destruct (@Split_wf d focused _ g c Hs root W w root' w' Hop) as [W' C'].
    split; [exact W'|].
    intros Hd' Hdisc. specialize (C Hd' Hdisc). specialize (C' Hd'). lia.
  - destruct (@CheckFocus_spec focused root W w) as (p' & E & W' & _ & C').
    rewrite E in Hop. injection Hop as <- <-. split; [exact W'|].
    intros _ Hdisc. rewrite C'. exact (Hdisc _ _ Hd).
  - rewrite (@CheckUpdateSettings_spec settings g root W) in Hop.
    injection Hop as <- <-. split; assumption.
  - destruct (@at_pane_tame a _ (CloseChild_tame b) root w root' w' W Hop)
      as [W' C'].
    split; [exact W'|]. intros Hd Hdisc. specialize (C Hd Hdisc). lia.
  - split; assumption.
  - destruct (@run_next_task_tame root w root' w' W Hop) as [W' C'].
    split; [exact W'|]. intros Hd Hdisc. specialize (C Hd Hdisc). lia.
Qed.

Lemma wf_nodes p :
  wf p = true -> forall n, In n (nodes p) -> node_ok n = true.
Proof.
  induction p as [p IHf IHs] using Pane_induction. intros W n.
  rewrite wf_eq in W. apply andb_prop in W. destruct W as [W Ws].
  apply andb_prop in W. destruct W as [W Wf].
  rewrite nodes_eq. intros [<-|H]; [exact W|].
  apply in_app_or in H. destruct H as [H|H].
  - destruct (_firstChild p) as [f|]; [|contradiction]. eapply IHf; eauto.
  - destruct (_secondChild p) as [s|]; [|contradiction]. eapply IHs; eauto.
Qed.

Lemma session_reachable discipline :
  reachable false discipline tab4 world4.
Proof.
  eapply reach_dispatch; [|exact session_dispatch].
  eapply reach_ConnectionClosed; [|exact session_close10].
  eapply reach_SplitHorizontal; [|exact session_split2].
  eapply reach_SplitVertical; [|exact session_split1].
  eapply reach_new. exact session_open.
Qed.

Lemma session_refreshed :
  reachable false exclusive_focus (tab1_marked false true) world1.
Proof.
  eapply reach_CheckFocus with (focused := focus_on 11) (root := tab1).
  - eapply reach_SplitVertical; [|exact session_split1].
    eapply reach_new. exact session_open.
  - unfold exclusive_focus. apply le_n.
  - reflexivity.
Qed.

(** ** Connection closed *)

Lemma run_subscribers_gate CloseOnExit root c subs w :
  CloseOnExit c = false ->
  run_subscribers CloseOnExit root c subs w = Some (tt, w).
Proof.
  intros Hc. induction subs as [|[c' [tok a]] rest IH]; [reflexivity|].
  simpl. unfold bind, on_ConnectionClosed. rewrite Hc.
  destruct (c' =? c); simpl; exact IH.
Qed.

(** ** What absorbing a split child does to the delegates *)

(** The delegates of this pane are gone from its two former children. *)
Lemma revoke_old_handlers_spec p first second w :
  _firstChild p = Some first -> _secondChild p = Some second ->
  exists first' second',
    revoke_old_handlers p w = Some ((first', second'), w) /\
    (forall h, ~ In (_firstClosedToken p, h) (_closedHandlers first')) /\
    (forall h, ~ In (_secondClosedToken p, h) (_closedHandlers second')).
Proof.
  intros Ef Es. unfold revoke_old_handlers. rewrite Ef, Es.
  do 2 eexists. split; [reflexivity|].
  split; intros h H; unfold Closed_revoke in H;
    [destruct first | destruct second]; simpl in H;
    apply filter_In in H; destruct H as [_ H]; simpl in H;
    rewrite Nat.eqb_refl in H; discriminate.
Qed.

(** The node takes the split state and the children of the kept child, and
    each adopted child gets one more delegate, of this node, behind the ones
    it already had. *)
Lemma close_child_split_sibling (closeFirst : bool) p first second w :
  wf p = true ->
  _firstChild p = Some first -> _secondChild p = Some second ->
  _IsLeaf (if closeFirst then second else first) = false ->
  exists p' w' rfirst rsecond,
    _firstChild (if closeFirst then second else first) = Some rfirst /\
    _secondChild (if closeFirst then second else first) = Some rsecond /\
    _CloseChild closeFirst p w = Some (p', w') /\
    this p' = this p /\
    _splitState p' = _splitState (if closeFirst then second else first) /\
    _firstChild p' =
      Some (set_closedHandlers
              (_closedHandlers rfirst
               ++ [(_firstClosedToken p', mkClosedHandler (this p) true)])
              rfirst) /\
    _secondChild p' =
      Some (set_closedHandlers
              (_closedHandlers rsecond
               ++ [(_secondClosedToken p', mkClosedHandler (this p) false)])
              rsecond).
Proof.
  intros W Ef Es Lr.
  assert (Wr : wf (if closeFirst then second else first) = true).
  { rewrite wf_eq, Ef, Es in W. apply andb_prop in W. destruct W as [W Ws].
    apply andb_prop in W. destruct W as [_ Wf].
    destruct closeFirst; assumption. }
  destruct (wf_split _ Wr Lr) as [(rf & rs & Erf & Ers & _ & _) _].
  exists (collapsed_split p (if closeFirst then second else first) w rf rs),
         (collapsed_split_world w), rf, rs.
  split; [exact Erf|]. split; [exact Ers|].
  split; [apply CloseChild_split; assumption|].
  repeat split; reflexivity.
Qed.

(** ** Leaf and split are exclusive *)

Lemma exclusive_eq p :
  exclusive p =
  node_exclusive p
  && match _firstChild p with Some first => exclusive first | None => true end
  && match _secondChild p with Some second => exclusive second | None => true end.
Proof. destruct p; reflexivity. Qed.

Lemma node_ok_exclusive n : node_ok n = true -> node_exclusive n = true.
Proof.
  unfold node_ok, node_exclusive.
  destruct (_IsLeaf n), (_firstChild n), (_secondChild n), (_control n),
    (_profile n), (_lastFocused n); simpl; congruence.
Qed.

Lemma wf_exclusive p : wf p = true -> exclusive p = true.
Proof.
  induction p as [p IHf IHs] using Pane_induction. intros W.
  rewrite wf_eq in W. rewrite exclusive_eq.
  apply andb_prop in W. destruct W as [W Ws].
  apply andb_prop in W. destruct W as [W Wf].
  rewrite (node_ok_exclusive p W). simpl.
  destruct (_firstChild p) as [f|], (_secondChild p) as [s|]; simpl;
    rewrite ?(IHf f eq_refl Wf), ?(IHs s eq_refl Ws); reflexivity.
Qed.

Lemma exclusive_nodes p :
  exclusive p = true -> forall n, In n (nodes p) -> node_exclusive n = true.
Proof.
  induction p as [p IHf IHs] using Pane_induction. intros W n.
  rewrite exclusive_eq in W. apply andb_prop in W. destruct W as [W Ws].
  apply andb_prop in W. destruct W as [W Wf].
  rewrite nodes_eq. intros [<-|H]; [exact W|].
  apply in_app_or in H. destruct H as [H|H].
  - destruct (_firstChild p) as [f|]; [|contradiction]. eapply IHf; eauto.
  - destruct (_secondChild p) as [s|]; [|contradiction]. eapply IHs; eauto.
Qed.

Lemma node_exclusive_iff n :
  node_exclusive n = true ->
  (_IsLeaf n = true <-> _splitState n = SplitState.None) /\
  (_IsLeaf n = true <-> _firstChild n = None /\ _secondChild n = None) /\
  (_IsLeaf n = true <-> _control n <> None).
Proof.
  unfold node_exclusive, _IsLeaf.
  destruct (_splitState n), (_firstChild n), (_secondChild n), (_control n);
    simpl; intros Hok; try discriminate;
    repeat split; intros; try tauto; try congruence;
    try (destruct H; congruence); try discriminate.
Qed.

Lemma exclusive_parts p :
  exclusive p = true ->
  node_exclusive p = true /\
  (forall first, _firstChild p = Some first -> exclusive first = true) /\
  (forall second, _secondChild p = Some second -> exclusive second = true).
Proof.
  rewrite exclusive_eq. intros W.
  apply andb_prop in W. destruct W as [W Ws].
  apply andb_prop in W. destruct W as [W Wf].
  split; [exact W|]. split; intros x E; rewrite E in *; assumption.
Qed.

Lemma exclusive_split_node p first second :
  _IsLeaf p = false -> _control p = None ->
  _firstChild p = Some first -> _secondChild p = Some second ->
  exclusive first = true -> exclusive second = true ->
  exclusive p = true.
Proof.
  intros L Ec Ef Es Wf Ws. rewrite exclusive_eq. unfold node_exclusive.
  rewrite L, Ec, Ef, Es, Wf, Ws. reflexivity.
Qed.

Lemma exclusive_set_closedHandlers hs q :
  exclusive (set_closedHandlers hs q) = exclusive q.
Proof. destruct q; reflexivity. Qed.

Lemma exclusive_set_firstChild p first' :
  exclusive p = true -> _IsLeaf p = false -> exclusive first' = true ->
  exclusive (set_firstChild (Some first') p) = true.
Proof.
  intros W L Wf. destruct (exclusive_parts p W) as (Hn & _ & Hs).
  rewrite exclusive_eq. unfold node_exclusive in *.
  destruct p as [a c lf pr ss f s t0 t1 t2 hs]; unfold _IsLeaf in *;
    simpl in *.
  rewrite L in *. rewrite Wf.
  destruct c; [destruct f, s; discriminate|].
  destruct s as [s|]; [rewrite (Hs s eq_refl)|]; reflexivity.
Qed.

Lemma exclusive_set_secondChild p second' :
  exclusive p = true -> _IsLeaf p = false -> exclusive second' = true ->
  exclusive (set_secondChild (Some second') p) = true.
Proof.
  intros W L Ws. destruct (exclusive_parts p W) as (Hn & Hf & _).
  rewrite exclusive_eq. unfold node_exclusive in *.
  destruct p as [a c lf pr ss f s t0 t1 t2 hs]; unfold _IsLeaf in *;
    simpl in *.
  rewrite L in *. rewrite Ws.
  destruct c; [destruct f, s; discriminate|].
  destruct f as [f|]; [rewrite (Hf f eq_refl)|]; simpl;
    rewrite ?orb_true_r; reflexivity.
Qed.

Lemma Split_leaf_no_profile d focused state profile control p w :
  _IsLeaf p = true -> _profile p = None ->
  Split_ d focused state profile control p w = None.
Proof.
  intros L Eg. rewrite Split_eq, L. simpl.
  destruct p as [a c lf pr ss f s t0 t1 t2 hs]; simpl in *. subst pr.
  destruct c; reflexivity.
Qed.

(** A split keeps leaf and split exclusive. *)
Lemma Split_exclusive d focused state profile control :
  state <> SplitState.None ->
  forall p, exclusive p = true ->
  forall w p' w',
    Split_ d focused state profile control p w = Some (p', w') ->
    exclusive p' = true.
Proof.
  intros Hs. induction p as [p IHf IHs] using Pane_induction.
  intros W w p' w' H. destruct (exclusive_parts p W) as (Hn & Wf & Ws).
  destruct (_IsLeaf p) eqn:L.
  - destruct control as [c1|]; [|rewrite Split_leaf_null in H; congruence].
    destruct (_profile p) as [g0|] eqn:Eg;
      [|rewrite Split_leaf_no_profile in H; congruence].
    unfold node_exclusive in Hn. rewrite L in Hn.
    destruct (_control p) as [c0|] eqn:Ec;
      [|rewrite !andb_false_r in Hn; discriminate].
    rewrite (Split_leaf d focused state profile c1 p w L Ec Eg) in H.
    injection H as <- <-. destruct state; [congruence| |]; reflexivity.
  - rewrite Split_eq, L in H. simpl in H.
    destruct (_firstChild p) as [f|] eqn:Ef; [|discriminate].
    destruct (_HasFocusedChild focused f).
    + unfold bind in H.
      destruct (Split_ d focused state profile control f w)
        as [[f' w1]|] eqn:E; [|discriminate].
      injection H as <- <-.
      apply exclusive_set_firstChild; try assumption.
      exact (IHf f eq_refl (Wf f eq_refl) _ _ _ E).
    + destruct (_secondChild p) as [s|] eqn:Es; [|discriminate].
      destruct (_HasFocusedChild focused s).
      * unfold bind in H.
        destruct (Split_ d focused state profile control s w)
          as [[s' w1]|] eqn:E; [|discriminate].
        injection H as <- <-.
        apply exclusive_set_secondChild; try assumption.
        exact (IHs s eq_refl (Ws s eq_refl) _ _ _ E).
      * injection H as <- <-. exact W.
Qed.

Lemma CloseChild_needs_children (closeFirst : bool) p w r :
  _CloseChild closeFirst p w = Some r ->
  exists first second,
    _firstChild p = Some first /\ _secondChild p = Some second.
Proof.
  unfold _CloseChild, revoke_old_handlers.
  destruct p as [a c lf pr ss f s t0 t1 t2 hs]. simpl.
  destruct f as [f|], s as [s|]; eauto;
    destruct closeFirst; simpl; unfold bind at 1; simpl; try discriminate.
  - destruct (_IsLeaf f); unfold bind, deref, crash; simpl; discriminate.
  - destruct (_IsLeaf s); unfold bind, deref, crash; simpl; discriminate.
Qed.

Lemma CloseChild_needs_grandchildren (closeFirst : bool) p first second w r :
  _firstChild p = Some first -> _secondChild p = Some second ->
  _IsLeaf (if closeFirst then second else first) = false ->
  _CloseChild closeFirst p w = Some r ->
  exists rfirst rsecond,
    _firstChild (if closeFirst then second else first) = Some rfirst /\
    _secondChild (if closeFirst then second else first) = Some rsecond.
Proof.
  intros Ef Es L. unfold _CloseChild, revoke_old_handlers.
  destruct p as [a c lf pr ss f s t0 t1 t2 hs]. simpl in Ef, Es. subst f s.
  destruct closeFirst; simpl; unfold bind at 1; simpl; rewrite L;
    unfold bind, deref, ret, crash; simpl;
    [ destruct second as [a' c' lf' pr' ss' [x|] [y|] u0 u1 u2 hs']
    | destruct first as [a' c' lf' pr' ss' [x|] [y|] u0 u1 u2 hs'] ];
    simpl; intros H; try discriminate; eauto.
Qed.

(** Closing a child keeps leaf and split exclusive. *)
Lemma CloseChild_exclusive (closeFirst : bool) p w p' w' :
  exclusive p = true ->
  _CloseChild closeFirst p w = Some (p', w') ->
  exclusive p' = true.
Proof.
  intros W H.
  destruct (CloseChild_needs_children closeFirst p w H) as (f & s & Ef & Es).
  destruct (exclusive_parts p W) as (Hn & Wf & Ws).
  assert (Wr : exclusive (if closeFirst then s else f) = true)
    by (destruct closeFirst; auto).
  destruct (exclusive_parts _ Wr) as (Hr & Wrf & Wrs).
  destruct (_IsLeaf (if closeFirst then s else f)) eqn:Lr.
  - unfold node_exclusive in Hr. rewrite Lr in Hr.
    destruct (_control (if closeFirst then s else f)) as [c|] eqn:Ec;
      [|rewrite !andb_false_r in Hr; discriminate].
    rewrite (CloseChild_leaf closeFirst p w Ef Es Lr Ec) in H.
    injection H as <- <-.
    unfold collapsed_leaf. rewrite Ec. reflexivity.
  - destruct (CloseChild_needs_grandchildren closeFirst p w Ef Es Lr H)
      as (rf & rs & Erf & Ers).
    rewrite (CloseChild_split closeFirst p w Ef Es Lr Erf Ers) in H.
    injection H as <- <-.
    assert (Ec : _control p = None).
    { unfold node_exclusive in Hn. rewrite Ef, Es in Hn.
      destruct (_IsLeaf p), (_control p); simpl in Hn;
        discriminate || reflexivity. }
    eapply exclusive_split_node;
      [exact Lr | exact Ec | reflexivity | reflexivity | | ];
      rewrite exclusive_set_closedHandlers; auto.
Qed.

Lemma exclusive_at_node n : exclusive_at n -> node_exclusive n = true.
Proof.
  unfold exclusive_at, node_exclusive, _IsLeaf.
  destruct (_splitState n), (_firstChild n), (_secondChild n), (_control n);
    simpl; intros (H1 & H2 & H3); try reflexivity; exfalso;
    try (destruct H2 as [H2 _]; destruct (H2 eq_refl); discriminate);
    try (destruct H3 as [H3 _]; apply (H3 eq_refl); reflexivity);
    try (destruct H3 as [_ H3]; discriminate H3; discriminate);
    try (destruct H2 as [_ H2]; discriminate H2; split; reflexivity).
Qed.

Lemma Exclusive_iff p : Exclusive p <-> exclusive p = true.
Proof.
  split.
  - induction p as [p IHf IHs] using Pane_induction. intros H.
    rewrite exclusive_eq.
    assert (Hp : node_exclusive p = true).
    { apply exclusive_at_node, H. rewrite nodes_eq. left. reflexivity. }
    rewrite Hp. simpl.
    assert (Hf : match _firstChild p with
                 | Some first => exclusive first
                 | None => true
                 end = true).
    { destruct (_firstChild p) as [f|] eqn:Ef; [|reflexivity].
      apply (IHf f eq_refl). intros n Hn. apply H.
      rewrite nodes_eq, Ef. right. apply in_or_app. left. exact Hn. }
    assert (Hs : match _secondChild p with
                 | Some second => exclusive second
                 | None => true
                 end = true).
    { destruct (_secondChild p) as [s|] eqn:Es; [|reflexivity].
      apply (IHs s eq_refl). intros n Hn. apply H.
      rewrite nodes_eq, Es. right. apply in_or_app. right. exact Hn. }
    rewrite Hf, Hs. reflexivity.
  - intros W n Hn. apply node_exclusive_iff.
    exact (exclusive_nodes p W n Hn).
Qed.

(** * The properties of the pane tree *)

(** ** Queries *)

(** C9: on a well-formed tree [GetLastFocusedTerminalControl] and
    [GetLastFocusedProfile] return the control, respectively the profile, of
    the first leaf from the left that is marked last focused, and none when
    no leaf is marked; on a split the answer of the first child is returned
    when it is not none, and the second child is asked only otherwise.  Both
    are functions of the tree alone. *)
Theorem last_focused_queries p :
  wf p = true ->
  GetLastFocusedTerminalControl p =
    Some (match first_lastFocused p with
          | Some l => _control l
          | None => None
          end) /\
  GetLastFocusedProfile p =
    Some (match first_lastFocused p with
          | Some l => _profile l
          | None => None
          end) /\
  (forall l, first_lastFocused p = Some l ->
     In l (leaves p) /\ _lastFocused l = true /\
     (exists c, _control l = Some c) /\ (exists g, _profile l = Some g)) /\
  ((forall l, In l (leaves p) -> _lastFocused l = false) ->
     GetLastFocusedTerminalControl p = Some None /\
     GetLastFocusedProfile p = Some None) /\
  (forall first second,
     _IsLeaf p = false ->
     _firstChild p = Some first -> _secondChild p = Some second ->
     GetLastFocusedTerminalControl p =
       match GetLastFocusedTerminalControl first with
       | Some (Some c) => Some (Some c)
       | Some None => GetLastFocusedTerminalControl second
       | None => None
       end /\
     GetLastFocusedProfile p =
       match GetLastFocusedProfile first with
       | Some (Some g) => Some (Some g)
       | Some None => GetLastFocusedProfile second
       | None => None
       end).
Proof.
  intros W. split; [|split; [|split; [|split]]].
  - apply GetLastFocusedTerminalControl_spec, W.
  - apply GetLastFocusedProfile_spec, W.
  - intros l H. destruct (first_lastFocused_in p H) as [Hin Hl].
    repeat split; try assumption.
    + exact (leaf_has_control p l W Hin).
    + exact (leaf_has_profile p l W Hin).
  - intros Hno.
    assert (E : first_lastFocused p = None).
    { destruct (first_lastFocused p) as [l|] eqn:E; [|reflexivity].
      destruct (first_lastFocused_in p E) as [Hin Hl].
      rewrite (Hno l Hin) in Hl. discriminate. }
    rewrite (GetLastFocusedTerminalControl_spec p W),
            (GetLastFocusedProfile_spec p W), E.
    split; reflexivity.
  - intros first second L Ef Es.
    rewrite (GetLastFocusedTerminalControl_eq p),
            (GetLastFocusedProfile_eq p), L, Ef, Es.
    split; reflexivity.
Qed.

Lemma last_focused_queries_witness :
  wf (tab1_marked false true) = true /\
  GetLastFocusedTerminalControl (tab1_marked false true) = Some (Some 11) /\
  GetLastFocusedProfile (tab1_marked false true) = Some (Some 8).
Proof.
  split; [reflexivity|].
  destruct (last_focused_queries (tab1_marked false true) eq_refl)
    as (Hc & Hp & _).
  split; [exact Hc | exact Hp].
Defined.

(** ** Settings propagation *)

(** C8: on a well-formed tree [CheckUpdateSettings] returns the tree it was
    given, and its only effect is one [UpdateSettings] call, with the given
    settings, on the control of every leaf whose profile is the given one,
    from left to right; when no leaf has that profile nothing changes. *)
Theorem settings_propagation settings profile p w :
  wf p = true ->
  CheckUpdateSettings settings profile p w =
    Some (p, add_calls (updates settings (matching_leaves profile p)) w) /\
  Forall2 (fun l x => exists c, _control l = Some c /\
                                x = UpdateSettings c settings)
          (matching_leaves profile p)
          (updates settings (matching_leaves profile p)) /\
  (matching_leaves profile p = [] ->
   CheckUpdateSettings settings profile p w = Some (p, w)).
Proof.
  intros W. split; [|split].
  - apply CheckUpdateSettings_spec, W.
  - apply (updates_one_per_leaf settings p W).
    intros l H. apply filter_In in H. apply H.
  - intros E. rewrite (CheckUpdateSettings_spec settings profile p W), E.
    simpl. rewrite add_calls_nil. reflexivity.
Qed.

Lemma settings_propagation_witness :
  wf twins = true /\
  CheckUpdateSettings 42 7 twins world1 =
    Some (twins, add_calls [UpdateSettings 10 42; UpdateSettings 11 42] world1)
  /\ CheckUpdateSettings 42 9 twins world1 = Some (twins, world1).
Proof.
  split; [reflexivity|].
  destruct (settings_propagation 42 7 twins world1 eq_refl) as (H7 & _ & _).
  destruct (settings_propagation 42 9 twins world1 eq_refl) as (_ & _ & H9).
  split; [exact H7 | exact (H9 eq_refl)].
Defined.

(** ** Split *)

(** C7: a split invoked on a split node whose children both report no
    focused descendant returns the node and the world unchanged, without
    failing; when the first child reports focus the call goes into the first
    child only, and when only the second does, into the second only. *)
Theorem split_on_split d focused state profile control p first second w :
  _IsLeaf p = false ->
  _firstChild p = Some first -> _secondChild p = Some second ->
  (_HasFocusedChild focused first = false ->
   _HasFocusedChild focused second = false ->
   Split_ d focused state profile control p w = Some (p, w)) /\
  (_HasFocusedChild focused first = true ->
   Split_ d focused state profile control p w =
   match Split_ d focused state profile control first w with
   | Some (first', w') => Some (set_firstChild (Some first') p, w')
   | None => None
   end) /\
  (_HasFocusedChild focused first = false ->
   _HasFocusedChild focused second = true ->
   Split_ d focused state profile control p w =
   match Split_ d focused state profile control second w with
   | Some (second', w') => Some (set_secondChild (Some second') p, w')
   | None => None
   end).
Proof.
  intros L Ef Es. rewrite (Split_eq d focused state profile control p).
  rewrite L, Ef, Es. simpl. split; [|split].
  - intros -> ->. reflexivity.
  - intros ->. reflexivity.
  - intros -> ->. reflexivity.
Qed.

Lemma split_on_split_witness :
  _IsLeaf tab1 = false /\
  _HasFocusedChild never tab1 = false /\
  SplitVertical false never 9 (Some 12) tab1 world1 = Some (tab1, world1) /\
  SplitHorizontal false (focus_on 11) 9 (Some 12) tab1 world1 =
    Some (tab2, world2).
Proof.
  destruct (split_on_split false never SplitState.Vertical 9 (Some 12)
              tab1 world1 eq_refl eq_refl eq_refl) as (H0 & _ & _).
  destruct (split_on_split false (focus_on 11) SplitState.Horizontal 9
              (Some 12) tab1 world1 eq_refl eq_refl eq_refl) as (_ & _ & H2).
  split; [reflexivity|]. split; [reflexivity|].
  split; [exact (H0 eq_refl eq_refl) | exact (H2 eq_refl eq_refl)].
Defined.

(** C2, as the code has it: splitting a leaf that holds control [c0] and
    profile [g0] with a new profile [g1] and control [c1] makes it a split
    of the requested orientation, without control, profile or last-focused
    mark, whose only leaves are its two children: the first holds [c0] and
    [g0], the second [c1] and [g1].  Both children get the default mark of
    the constructor, so afterwards [GetLastFocusedTerminalControl] returns
    [c0] when that default is [true] and none when it is [false], whatever
    the mark of the leaf was. *)
Theorem split_of_leaf d focused state g1 c1 p c0 g0 w :
  state <> SplitState.None ->
  _IsLeaf p = true -> _control p = Some c0 -> _profile p = Some g0 ->
  exists p' w' first second,
    Split_ d focused state g1 (Some c1) p w = Some (p', w') /\
    this p' = this p /\ _splitState p' = state /\ _IsLeaf p' = false /\
    _control p' = None /\ _profile p' = None /\ _lastFocused p' = false /\
    _firstChild p' = Some first /\ _secondChild p' = Some second /\
    leaves p' = [first; second] /\
    _IsLeaf first = true /\
    _control first = Some c0 /\ _profile first = Some g0 /\
    _lastFocused first = d /\
    _IsLeaf second = true /\
    _control second = Some c1 /\ _profile second = Some g1 /\
    _lastFocused second = d /\
    GetLastFocusedTerminalControl p' = Some (if d then Some c0 else None) /\
    GetLastFocusedProfile p' = Some (if d then Some g0 else None).
Proof.
  intros Hs L Ec Eg.
  exists (split_parent d state g1 c1 p c0 g0 w), (split_world c1 p c0 w),
    (split_first d p c0 g0 w), (split_second d g1 c1 p w).
  split; [apply Split_leaf; assumption|].
  destruct state; [congruence| |]; destruct d; repeat split; reflexivity.
Qed.

Lemma split_of_leaf_witness :
  exists p' w',
    SplitVertical false (focus_on 10) 8 (Some 11) tab0 world0 = Some (p', w') /\
    _splitState p' = SplitState.Vertical /\
    GetLastFocusedTerminalControl p' = Some None.
Proof.
  assert (Hs : SplitState.Vertical <> SplitState.None) by discriminate.
  destruct (split_of_leaf false (focus_on 10) 8 11 tab0 world0 Hs
              eq_refl eq_refl eq_refl)
    as (p' & w' & f & s & H & _ & Hst & _ & _ & _ & _ & _ & _ & _ & _ & _ & _
        & _ & _ & _ & _ & _ & Hq & _).
  exists p', w'. exact (conj H (conj Hst Hq)).
Defined.

(** The last-focused leaf disappears from the answer of
    [GetLastFocusedTerminalControl] when its pane is split with a constructor
    default of [false]; with a default of [true] a leaf that was not marked
    appears in it. *)
Lemma split_changes_last_focused :
  (_IsLeaf tab0 = true /\ _lastFocused tab0 = true /\
   GetLastFocusedTerminalControl tab0 = Some (Some 10) /\
   SplitVertical false (focus_on 10) 8 (Some 11) tab0 world0
     = Some (tab1, world1) /\
   GetLastFocusedTerminalControl tab1 = Some None) /\
  (_IsLeaf tab0_unmarked = true /\ _lastFocused tab0_unmarked = false /\
   GetLastFocusedTerminalControl tab0_unmarked = Some None /\
   SplitVertical true (focus_on 10) 8 (Some 11) tab0_unmarked world0
     = Some (tab1_marked true true, world1) /\
   GetLastFocusedTerminalControl (tab1_marked true true) = Some (Some 10)).
Proof. repeat split. Qed.

(** ** Close / collapse *)

(** C4: closing a child of a well-formed split whose other child is a leaf
    succeeds and makes the node a leaf: it holds the control and the profile
    of the kept child, its last-focused mark is the disjunction of the marks
    of the two children, its split state is [None], both children are
    released, and [Focus] is called on the adopted control exactly when the
    mark is set. *)
Theorem close_child_leaf_sibling (closeFirst : bool) p first second w :
  wf p = true ->
  _firstChild p = Some first -> _secondChild p = Some second ->
  _IsLeaf (if closeFirst then second else first) = true ->
  exists p' w' c,
    _CloseChild closeFirst p w = Some (p', w') /\
    _control (if closeFirst then second else first) = Some c /\
    _control p' = Some c /\
    _profile p' = _profile (if closeFirst then second else first) /\
    _lastFocused p' = _lastFocused first || _lastFocused second /\
    _splitState p' = SplitState.None /\ _IsLeaf p' = true /\
    _firstChild p' = None /\ _secondChild p' = None /\
    calls w' = calls w ++ (if _lastFocused p' then [Focus c] else []).
Proof.
  intros W Ef Es Lr.
  assert (Wr : wf (if closeFirst then second else first) = true).
  { rewrite wf_eq, Ef, Es in W. apply andb_prop in W. destruct W as [W Ws].
    apply andb_prop in W. destruct W as [_ Wf].
    destruct closeFirst; assumption. }
  destruct (wf_leaf _ Wr Lr) as (_ & _ & [c Ec] & _).
  exists (collapsed_leaf p first second
            (if closeFirst then second else first) w),
         (collapsed_leaf_world p first second w c), c.
  split; [apply CloseChild_leaf; assumption|].
  unfold collapsed_leaf, collapsed_leaf_world. simpl.
  repeat split; assumption || reflexivity.
Qed.

Lemma close_child_leaf_sibling_witness :
  exists p' w',
    _CloseChild false (tab1_marked true false) world1 = Some (p', w') /\
    _control p' = Some 10 /\ _profile p' = Some 7 /\
    _lastFocused p' = true /\ _IsLeaf p' = true /\
    calls w' = [Focus 10].
Proof.
  destruct (close_child_leaf_sibling false (tab1_marked true false) world1
              eq_refl eq_refl eq_refl eq_refl)
    as (p' & w' & c & H & Ec & Hc & Hp & Hl & _ & HL & _ & _ & Hw).
  exists p', w'.
  assert (E : c = 10) by (simpl in Ec; congruence). subst c.
  rewrite Hl in Hw.
  exact (conj H (conj Hc (conj Hp (conj Hl (conj HL Hw))))).
Defined.

(** C3, as the code has it: splitting a leaf and closing the new second
    child at once gives back a leaf at the same place with the original
    control and profile and no children; its last-focused mark is the default
    mark that the constructor gave to the two children, not the mark the leaf
    had before the split. *)
Theorem split_then_close_second d focused state g1 c1 p c0 g0 w :
  _IsLeaf p = true -> _control p = Some c0 -> _profile p = Some g0 ->
  exists p1 w1 p2 w2,
    Split_ d focused state g1 (Some c1) p w = Some (p1, w1) /\
    _CloseChild false p1 w1 = Some (p2, w2) /\
    this p2 = this p /\ _IsLeaf p2 = true /\
    _control p2 = Some c0 /\ _profile p2 = Some g0 /\
    _firstChild p2 = None /\ _secondChild p2 = None /\
    _closedHandlers p2 = _closedHandlers p /\
    _lastFocused p2 = d.
Proof.
  intros L Ec Eg.
  exists (split_parent d state g1 c1 p c0 g0 w), (split_world c1 p c0 w).
  do 2 eexists.
  split; [apply Split_leaf; assumption|].
  split; [apply (@CloseChild_leaf false _ (split_first d p c0 g0 w)
                   (split_second d g1 c1 p w) c0); reflexivity|].
  destruct d; repeat split; reflexivity.
Qed.

Lemma split_then_close_second_witness :
  exists p1 w1 p2 w2,
    SplitVertical false (focus_on 10) 8 (Some 11) tab0 world0 = Some (p1, w1) /\
    _CloseChild false p1 w1 = Some (p2, w2) /\
    _control p2 = Some 10 /\ _profile p2 = Some 7 /\
    _lastFocused p2 = false.
Proof.
  destruct (split_then_close_second false (focus_on 10) SplitState.Vertical
              8 11 tab0 world0 eq_refl eq_refl eq_refl)
    as (p1 & w1 & p2 & w2 & H1 & H2 & _ & _ & Hc & Hp & _ & _ & _ & Hl).
  exists p1, w1, p2, w2.
  exact (conj H1 (conj H2 (conj Hc (conj Hp Hl)))).
Defined.

(** Split followed by closing the second child does not give back the
    last-focused mark of the leaf: a marked leaf comes back unmarked with a
    constructor default of [false], an unmarked one comes back marked with a
    default of [true]. *)
Lemma round_trip_changes_mark :
  (_lastFocused tab0 = true /\
   SplitVertical false (focus_on 10) 8 (Some 11) tab0 world0
     = Some (tab1, world1) /\
   option_map (fun r => (_control (fst r), _lastFocused (fst r)))
              (_CloseChild false tab1 world1)
     = Some (Some 10, false)) /\
  (_lastFocused tab0_unmarked = false /\
   SplitVertical true (focus_on 10) 8 (Some 11) tab0_unmarked world0
     = Some (tab1_marked true true, world1) /\
   option_map (fun r => (_control (fst r), _lastFocused (fst r)))
              (_CloseChild false (tab1_marked true true) world1)
     = Some (Some 10, true)).
Proof. repeat split. Qed.

(** C5: the code does not revoke the delegates that the absorbed child had
    registered on its own children.  In the example session the root (at
    address 1) absorbs its second child (at address 3) when its first child
    closes; the pane of control 11, now a child of the root, keeps the
    delegate of the destroyed pane 3 in front of the new delegate of the
    root.  When control 11 closes next, that delegate is invoked through a
    pointer to a destroyed pane and the collapse has no result, although
    the root's own delegate alone would lead to the expected leaf. *)
Theorem absorbed_child_delegates_stay :
  run_next_task tab2 world3 = Some (tab4, world4) /\
  option_map _closedHandlers (_firstChild tab4) =
    Some [(8, mkClosedHandler 3 true); (10, mkClosedHandler 1 true)] /\
  option_map _closedHandlers (_secondChild tab4) =
    Some [(9, mkClosedHandler 3 false); (11, mkClosedHandler 1 false)] /\
  find_pane 3 tab4 = None /\
  signal_ConnectionClosed always tab4 11 world4 = None /\
  signal_ConnectionClosed always tab4 12 world4 = None /\
  raise_Closed tab4 [(10, mkClosedHandler 1 true)] world4 = Some (tt, world5) /\
  run_next_task tab4 world5 = Some (tab6, world6).
Proof. repeat split. Qed.

(** ** Connection closed *)

(** C10: when a control raises ConnectionClosed and its CloseOnExit flag is
    false, no Closed event is raised, nothing is queued and the world is
    unchanged; the lambda registered by a pane raises the Closed event of
    that pane exactly when the flag is true. *)
Theorem close_on_exit_gate CloseOnExit root c w :
  (CloseOnExit c = false ->
   signal_ConnectionClosed CloseOnExit root c w = Some (tt, w)) /\
  (forall a, CloseOnExit c = false ->
   on_ConnectionClosed CloseOnExit root c a w = Some (tt, w)) /\
  (forall a p, CloseOnExit c = true -> find_pane a root = Some p ->
   on_ConnectionClosed CloseOnExit root c a w =
   raise_Closed root (_closedHandlers p) w) /\
  (forall w', signal_ConnectionClosed CloseOnExit root c w = Some (tt, w') ->
   w' <> w -> CloseOnExit c = true).
Proof.
  split; [|split; [|split]].
  - intros Hc. apply run_subscribers_gate, Hc.
  - intros a Hc. unfold on_ConnectionClosed. rewrite Hc. reflexivity.
  - intros a p Hc Hp. unfold on_ConnectionClosed. rewrite Hc.
    unfold bind, deref. rewrite Hp. reflexivity.
  - intros w' H Hne. destruct (CloseOnExit c) eqn:Hc; [reflexivity|].
    unfold signal_ConnectionClosed in H.
    rewrite (run_subscribers_gate CloseOnExit root c (connectionClosed w) w Hc)
      in H.
    congruence.
Qed.

Lemma close_on_exit_gate_witness :
  signal_ConnectionClosed never tab2 10 world2 = Some (tt, world2) /\
  on_ConnectionClosed always tab2 10 2 world2 =
    raise_Closed tab2 [(4, mkClosedHandler 1 true)] world2 /\
  dispatcher world3 = [mkClosedHandler 1 true].
Proof.
  destruct (close_on_exit_gate never tab2 10 world2) as (H0 & _ & _ & _).
  destruct (close_on_exit_gate always tab2 10 world2) as (_ & _ & H1 & _).
  split; [exact (H0 eq_refl)|].
  split; [exact (H1 2 _ eq_refl eq_refl) | reflexivity].
Defined.

(** ** Invariants *)

(** C6: in every state a tab can reach by opening, splitting, refreshing
    focus, updating settings, closing children (at any pane) and dispatching
    queued closes, every pane of the tree is a leaf exactly when its split
    state is [None], exactly when both children are absent, and exactly when
    it holds a control; a split and the closing of a child, whenever they
    return, keep this true of every pane of the tree they are run on. *)
Theorem leaf_xor_split :
  (forall d discipline root w,
     reachable d discipline root w -> Exclusive root) /\
  (forall d focused state profile control p w p' w',
     state <> SplitState.None -> Exclusive p ->
     Split_ d focused state profile control p w = Some (p', w') ->
     Exclusive p') /\
  (forall (closeFirst : bool) p w p' w',
     Exclusive p ->
     _CloseChild closeFirst p w = Some (p', w') ->
     Exclusive p').
Proof.
  split; [|split].
  - intros d discipline root w R. apply Exclusive_iff, wf_exclusive.
    apply (reachable_inv R).
  - intros d focused state profile control p w p' w' Hs E H.
    apply Exclusive_iff. apply Exclusive_iff in E.
    exact (@Split_exclusive d focused state profile control Hs p E w p' w' H).
  - intros closeFirst p w p' w' E H.
    apply Exclusive_iff. apply Exclusive_iff in E.
    exact (@CloseChild_exclusive closeFirst p w p' w' E H).
Qed.

Lemma leaf_xor_split_witness :
  reachable false any_focus tab4 world4 /\
  (_IsLeaf tab4 = true <-> _control tab4 <> None).
Proof.
  split; [exact (session_reachable any_focus)|].
  destruct leaf_xor_split as (H & _ & _).
  destruct (H false any_focus tab4 world4 (session_reachable any_focus) tab4
              (or_introl eq_refl)) as (_ & _ & H3).
  exact H3.
Defined.

(** C1, as the code has it: when the default last-focused mark given by the
    constructor is [false], and at every focus refresh at most one leaf of
    the tree holds a control that reports input focus, at most one leaf is
    marked last focused in every state a tab can reach by opening,
    splitting, refreshing focus, updating settings, closing children and
    dispatching queued closes.  On a well-formed tree a split (with that
    default) and the closing of a child mark no new leaf, and a focus
    refresh marks exactly the leaves whose control reports focus. *)
Theorem at_most_one_last_focused :
  (forall root w,
     reachable false exclusive_focus root w ->
     count_lastFocused root <= 1) /\
  (forall focused state profile control p w p' w',
     state <> SplitState.None -> wf p = true ->
     Split_ false focused state profile control p w = Some (p', w') ->
     count_lastFocused p' <= count_lastFocused p) /\
  (forall (closeFirst : bool) p w p' w',
     wf p = true ->
     _CloseChild closeFirst p w = Some (p', w') ->
     count_lastFocused p' <= count_lastFocused p) /\
  (forall focused p w p' w',
     wf p = true ->
     CheckFocus focused p w = Some (p', w') ->
     count_lastFocused p' = count_focus focused p).
Proof.
  split; [|split; [|split]].
  - intros root w R. destruct (reachable_inv R) as [_ H].
    apply H; [reflexivity|]. intros focused p Hd. exact Hd.
  - intros focused state profile control p w p' w' Hs W H.
    destruct (@Split_wf false focused state profile control Hs p W w p' w' H)
      as [_ C].
    exact (C eq_refl).
  - intros closeFirst p w p' w' W H.
    exact (proj2 (@CloseChild_tame closeFirst p w p' w' W H)).
  - intros focused p w p' w' W H.
    destruct (@CheckFocus_spec focused p W w) as (q & E & _ & _ & C).
    rewrite E in H. injection H as <- <-. exact C.
Qed.

Lemma at_most_one_last_focused_witness :
  reachable false exclusive_focus (tab1_marked false true) world1 /\
  count_lastFocused (tab1_marked false true) <= 1.
Proof.
  split; [exact session_refreshed|].
  destruct at_most_one_last_focused as (H & _ & _ & _).
  exact (H _ _ session_refreshed).
Defined.

(** Two leaves marked last focused in a reachable state: after a refresh
    in which both controls report focus (constructor default [false]), and
    right after a split (constructor default [true]). *)
Lemma two_last_focused_leaves :
  (reachable false any_focus (tab1_marked true true) world1 /\
   count_lastFocused (tab1_marked true true) = 2) /\
  (reachable true any_focus (tab1_marked true true) world1 /\
   count_lastFocused (tab1_marked true true) = 2).
Proof.
  split; (split; [|reflexivity]).
  - eapply reach_CheckFocus with (focused := always) (root := tab1).
    + eapply reach_SplitVertical; [|exact session_split1].
      eapply reach_new. exact session_open.
    + exact I.
    + reflexivity.
  - eapply reach_SplitVertical
      with (focused := focus_on 10) (profile := 8) (control := Some 11)
           (root := tab0_unmarked) (w := world0); [|reflexivity].
    eapply reach_new
      with (profile := 7) (control := Some 10) (lastFocused := false)
           (w0 := World0).
    reflexivity.
Qed.

(** * Further properties of the pane tree *)

(** ** Focus *)

Lemma HasFocusedChild_eq focused p :
  _HasFocusedChild focused p =
  (match _control p with Some c => focused c | None => false end)
  || (match _firstChild p with
      | Some first => _HasFocusedChild focused first
      | None => false
      end)
  || (match _secondChild p with
      | Some second => _HasFocusedChild focused second
      | None => false
      end).
Proof. destruct p; reflexivity. Qed.

Lemma HasFocusedChild_existsb focused p :
  wf p = true ->
  _HasFocusedChild focused p = existsb (leaf_focus focused) (leaves p).
Proof.
  induction p as [p IHf IHs] using Pane_induction. intros W.
  rewrite HasFocusedChild_eq, leaves_eq. destruct (_IsLeaf p) eqn:L.
  - destruct (wf_leaf p W L) as (Ef & Es & _). rewrite Ef, Es. simpl.
    unfold leaf_focus. rewrite !orb_false_r. reflexivity.
  - destruct (wf_split p W L) as [(f & s & Ef & Es & Wf & Ws) (Ec & _)].
    rewrite Ef, Es, Ec, existsb_app, (IHf f Ef Wf), (IHs s Es Ws).
    reflexivity.
Qed.

(** X1: on a well-formed tree [_HasFocusedChild] holds exactly when some leaf of
    the tree holds a control that reports input focus. *)
Theorem has_focused_child_iff focused p :
  wf p = true ->
  (_HasFocusedChild focused p = true <->
   exists l c, In l (leaves p) /\ _control l = Some c /\ focused c = true).
Proof.
  intros W. rewrite (HasFocusedChild_existsb focused p W), existsb_exists.
  unfold leaf_focus. split.
  - intros (l & Hl & H). destruct (_control l) as [c|] eqn:E; [|discriminate].
    exists l, c. auto.
  - intros (l & c & Hl & E & H). exists l. rewrite E. auto.
Qed.

Lemma has_focused_child_iff_witness :
  wf tab2 = true /\
  _HasFocusedChild (focus_on 12) tab2 = true /\
  _HasFocusedChild (focus_on 13) tab2 <> true.
Proof.
  split; [reflexivity|].
  destruct (has_focused_child_iff (focus_on 12) tab2 eq_refl) as [_ H12].
  destruct (has_focused_child_iff (focus_on 13) tab2 eq_refl) as [H13 _].
  split.
  - apply H12. exists (a_leaf 5 12 false 9 7 [(9, mkClosedHandler 3 false)]), 12.
    split; [right; right; left; reflexivity | split; reflexivity].
  - intros H. destruct (H13 H) as (l & c & Hl & Hc & Hf).
    destruct Hl as [<-|[<-|[<-|[]]]]; injection Hc as <-; discriminate.
Defined.

(** What a refresh does to the leaves: each keeps everything but its mark,
    which becomes the focus report of its control. *)
Lemma CheckFocus_leaves focused p :
  wf p = true ->
  forall w, exists p',
    CheckFocus focused p w = Some (p', w) /\
    wf p' = true /\
    _IsLeaf p' = _IsLeaf p /\
    leaves p' =
      map (fun l => set_lastFocused (leaf_focus focused l) l) (leaves p).
Proof.
  induction p as [p IHf IHs] using Pane_induction. intros W w.
  rewrite CheckFocus_eq. destruct (_IsLeaf p) eqn:L.
  - cbv zeta. unfold ret. eexists. split; [reflexivity|].
    assert (L' : _IsLeaf (set_lastFocused
                            (match _control p with
                             | Some c => focused c
                             | None => false
                             end) p) = true) by (destruct p; exact L).
    split; [|split].
    + apply wf_set_lastFocused_leaf; assumption.
    + exact L'.
    + rewrite (leaves_eq p), L, leaves_eq, L'. reflexivity.
  - destruct (wf_split p W L) as [(f & s & Ef & Es & Wf & Ws) (_ & _ & Hl)].
    cbv zeta. rewrite (set_lastFocused_same p Hl), Ef.
    destruct (IHf f Ef Wf w) as (f' & Hf & Wf' & Lf & Cf).
    destruct (IHs s Es Ws w) as (s' & Hs & Ws' & Ls & Cs).
    unfold bind at 1. rewrite Hf.
    assert (Es' : _secondChild (set_firstChild (Some f') p) = Some s)
      by (destruct p; exact Es).
    rewrite Es'. unfold bind. rewrite Hs.
    eexists. split; [reflexivity|].
    assert (L' : _IsLeaf (set_firstChild (Some f') p) = false)
      by (destruct p; exact L).
    assert (L'' : _IsLeaf (set_secondChild (Some s')
                             (set_firstChild (Some f') p)) = false)
      by (destruct p; exact L).
    split; [|split].
    + apply wf_set_secondChild; [apply wf_set_firstChild| |]; assumption.
    + exact L''.
    + rewrite (leaves_eq p), L, Ef, Es, map_app, <- Cf, <- Cs.
      rewrite leaves_eq, L''. destruct p; reflexivity.
Qed.

Lemma first_marked_after_refresh focused ls :
  match hd_error
          (filter _lastFocused
             (map (fun l => set_lastFocused (leaf_focus focused l) l) ls))
  with
  | Some l => (_control l, _profile l)
  | None => (None, None)
  end =
  match find (leaf_focus focused) ls with
  | Some l => (_control l, _profile l)
  | None => (None, None)
  end.
Proof.
  induction ls as [|l ls IH]; [reflexivity|]. cbn [map filter find].
  assert (E : _lastFocused (set_lastFocused (leaf_focus focused l) l)
              = leaf_focus focused l) by (destruct l; reflexivity).
  rewrite E. destruct (leaf_focus focused l); [|exact IH].
  destruct l; reflexivity.
Qed.

(** X2: after a focus refresh of a well-formed tree, which always succeeds and
    leaves the world and the sessions as they were, the two last-focused
    queries return the control and the profile of the first leaf, from the
    left, whose control reports input focus, and none when no control
    does. *)
Theorem refresh_then_query focused p w :
  wf p = true ->
  exists p',
    CheckFocus focused p w = Some (p', w) /\
    sessions p' = sessions p /\
    GetLastFocusedTerminalControl p' =
      Some (match find (leaf_focus focused) (leaves p) with
            | Some l => _control l
            | None => None
            end) /\
    GetLastFocusedProfile p' =
      Some (match find (leaf_focus focused) (leaves p) with
            | Some l => _profile l
            | None => None
            end).
Proof.
  intros W. destruct (@CheckFocus_leaves focused p W w) as (p' & H & W' & _ & E).
  exists p'. split; [exact H|].
  pose proof (first_marked_after_refresh focused (leaves p)) as Hm.
  rewrite <- E in Hm. fold (first_lastFocused p') in Hm.
  split; [|split].
  - unfold sessions. rewrite E, map_map. apply map_ext.
    intros l. destruct l; reflexivity.
  - rewrite (GetLastFocusedTerminalControl_spec p' W').
    destruct (first_lastFocused p'), (find (leaf_focus focused) (leaves p));
      simpl in Hm; congruence.
  - rewrite (GetLastFocusedProfile_spec p' W').
    destruct (first_lastFocused p'), (find (leaf_focus focused) (leaves p));
      simpl in Hm; congruence.
Qed.

Lemma refresh_then_query_witness :
  exists p',
    CheckFocus (focus_on 12) tab2 world2 = Some (p', world2) /\
    GetLastFocusedTerminalControl p' = Some (Some 12) /\
    GetLastFocusedProfile p' = Some (Some 9).
Proof.
  destruct (refresh_then_query (focus_on 12) tab2 world2 eq_refl)
    as (p' & H & _ & Hc & Hp).
  exists p'. exact (conj H (conj Hc Hp)).
Defined.




(** ** Split *)

Lemma sessions_leaf p :
  _IsLeaf p = true -> sessions p = [(_control p, _profile p)].
Proof. intros L. unfold sessions. rewrite leaves_eq, L. reflexivity. Qed.

Lemma sessions_split p first second :
  _IsLeaf p = false ->
  _firstChild p = Some first -> _secondChild p = Some second ->
  sessions p = sessions first ++ sessions second.
Proof.
  intros L Ef Es. unfold sessions.
  rewrite (leaves_eq p), L, Ef, Es. apply map_app.
Qed.

Lemma sessions_set_firstChild p first' second :
  _IsLeaf p = false -> _secondChild p = Some second ->
  sessions (set_firstChild (Some first') p) = sessions first' ++ sessions second.
Proof.
  intros L Es. apply sessions_split; destruct p; assumption || reflexivity.
Qed.

Lemma sessions_set_secondChild p first second' :
  _IsLeaf p = false -> _firstChild p = Some first ->
  sessions (set_secondChild (Some second') p) = sessions first ++ sessions second'.
Proof.
  intros L Ef. apply sessions_split; destruct p; assumption || reflexivity.
Qed.

(** X4: on a well-formed tree a split with a control always succeeds.  A split
    with a null control fails as soon as it finds a leaf to split, that is
    when the node is a leaf or some leaf below it reports focus, and changes
    nothing otherwise. *)
Theorem split_outcome d focused state profile p w :
  wf p = true ->
  (forall c1, exists p' w',
     Split_ d focused state profile (Some c1) p w = Some (p', w')) /\
  Split_ d focused state profile None p w =
    if _IsLeaf p || _HasFocusedChild focused p then None else Some (p, w).
Proof.
  revert w. induction p as [p IHf IHs] using Pane_induction. intros w W.
  destruct (_IsLeaf p) eqn:L.
  - split.
    + intros c1. destruct (wf_leaf p W L) as (_ & _ & [c0 Ec] & [g0 Eg]).
      rewrite (Split_leaf d focused state profile c1 p w L Ec Eg). eauto.
    + apply Split_leaf_null, L.
  - destruct (wf_split p W L) as [(f & s & Ef & Es & Wf & Ws) (Ec & _)].
    destruct (IHf f Ef w Wf) as [Sf Nf]. destruct (IHs s Es w Ws) as [Ss Ns].
    split.
    + intros c1. rewrite Split_eq, L, Ef, Es. simpl.
      destruct (_HasFocusedChild focused f).
      * destruct (Sf c1) as (f' & w' & E).
        unfold bind. rewrite E. unfold ret. eauto.
      * destruct (_HasFocusedChild focused s).
        -- destruct (Ss c1) as (s' & w' & E).
           unfold bind. rewrite E. unfold ret. eauto.
        -- unfold ret. eauto.
    + rewrite Split_eq, L, Ef, Es.
      rewrite (HasFocusedChild_eq focused p), Ec, Ef, Es. simpl.
      destruct (_HasFocusedChild focused f).
      * unfold bind. rewrite Nf, orb_true_r. reflexivity.
      * destruct (_HasFocusedChild focused s).
        -- unfold bind. rewrite Ns, orb_true_r. reflexivity.
        -- reflexivity.
Qed.

Lemma split_outcome_witness :
  wf tab2 = true /\
  (exists p' w',
     SplitVertical false (focus_on 12) 6 (Some 13) tab2 world2
       = Some (p', w')) /\
  SplitVertical false (focus_on 12) 6 None tab2 world2 = None /\
  SplitVertical false never 6 None tab2 world2 = Some (tab2, world2).
Proof.
  split; [reflexivity|].
  destruct (split_outcome false (focus_on 12) SplitState.Vertical 6
              tab2 world2 eq_refl) as [H1 H2].
  destruct (split_outcome false never SplitState.Vertical 6
              tab2 world2 eq_refl) as [_ H3].
  exact (conj (H1 13) (conj H2 H3)).
Defined.

(** X5: when a split acts, that is on a leaf or on a tree in which some control
    reports focus, the sessions afterwards are the sessions before with the
    new one put right behind the session that was split: the first one,
    from the left, whose control reports focus (the only one, when the node
    itself is a leaf). *)
Theorem split_inserts_session d focused state g1 c1 :
  state <> SplitState.None ->
  forall p w p' w',
    wf p = true ->
    _IsLeaf p || _HasFocusedChild focused p = true ->
    Split_ d focused state g1 (Some c1) p w = Some (p', w') ->
    exists before c0 g0 after,
      sessions p = before ++ [(Some c0, Some g0)] ++ after /\
      sessions p' =
        before ++ [(Some c0, Some g0); (Some c1, Some g1)] ++ after /\
      (forall c g, In (Some c, g) before -> focused c = false) /\
      (_HasFocusedChild focused p = true -> focused c0 = true).
Proof.
  intros Hs. induction p as [p IHf IHs] using Pane_induction.
  intros w p' w' W Hact H. destruct (_IsLeaf p) eqn:L.
  - destruct (wf_leaf p W L) as (Ef & Es & [c0 Ec] & [g0 Eg]).
    rewrite (Split_leaf d focused state g1 c1 p w L Ec Eg) in H.
    injection H as <- <-. exists [], c0, g0, [].
    split; [rewrite (sessions_leaf p L), Ec, Eg; reflexivity|].
    split; [destruct state; [congruence| |]; reflexivity|].
    split; [intros c g []|].
    rewrite HasFocusedChild_eq, Ec, Ef, Es, !orb_false_r. auto.
  - destruct (wf_split p W L) as [(f & s & Ef & Es & Wf & Ws) (Ec & _)].
    rewrite Split_eq, L, Ef, Es in H. simpl in H, Hact.
    rewrite HasFocusedChild_eq, Ec, Ef, Es in Hact. simpl in Hact.
    rewrite (sessions_split p L Ef Es).
    destruct (_HasFocusedChild focused f) eqn:Hf.
    + unfold bind in H.
      destruct (Split_ d focused state g1 (Some c1) f w)
        as [[f' w1]|] eqn:E; [|discriminate].
      injection H as <- <-.
      destruct (IHf f Ef w f' w1 Wf) as (b & c0 & g0 & a & E1 & E2 & Hb & Hc);
        [rewrite Hf; apply orb_true_r | exact E |].
      exists b, c0, g0, (a ++ sessions s).
      rewrite (sessions_set_firstChild p f' L Es), E1, E2.
      split; [|split; [|split]]; try assumption.
      * rewrite <- !app_assoc. reflexivity.
      * rewrite <- !app_assoc. reflexivity.
      * intros _. exact (Hc Hf).
    + simpl in Hact. rewrite Hact in H. unfold bind in H.
      destruct (Split_ d focused state g1 (Some c1) s w)
        as [[s' w1]|] eqn:E; [|discriminate].
      injection H as <- <-.
      destruct (IHs s Es w s' w1 Ws) as (b & c0 & g0 & a & E1 & E2 & Hb & Hc);
        [rewrite Hact; apply orb_true_r | exact E |].
      exists (sessions f ++ b), c0, g0, a.
      rewrite (sessions_set_secondChild p s' L Ef), E1, E2.
      split; [|split; [|split]].
      * rewrite <- !app_assoc. reflexivity.
      * rewrite <- !app_assoc. reflexivity.
      * intros c g Hin. apply in_app_or in Hin. destruct Hin as [Hin|Hin];
          [|exact (Hb c g Hin)].
        rewrite (HasFocusedChild_existsb focused f Wf) in Hf.
        unfold sessions in Hin. apply in_map_iff in Hin.
        destruct Hin as (l & El & Hl).
        destruct (focused c) eqn:Fc; [|reflexivity].
        assert (Hex : existsb (leaf_focus focused) (leaves f) = true).
        { apply existsb_exists. exists l. split; [exact Hl|].
          unfold leaf_focus. injection El as -> _. exact Fc. }
        congruence.
      * intros _. exact (Hc Hact).
Qed.

Lemma split_inserts_session_witness :
  sessions tab1 = [(Some 10, Some 7); (Some 11, Some 8)] /\
  sessions tab2 = [(Some 10, Some 7); (Some 11, Some 8); (Some 12, Some 9)] /\
  exists before c0 g0 after,
    sessions tab1 = before ++ [(Some c0, Some g0)] ++ after /\
    sessions tab2 =
      before ++ [(Some c0, Some g0); (Some 12, Some 9)] ++ after /\
    focus_on 11 c0 = true.
Proof.
  split; [reflexivity|]. split; [reflexivity|].
  assert (Hs : SplitState.Horizontal <> SplitState.None) by discriminate.
  destruct (@split_inserts_session false (focus_on 11) SplitState.Horizontal
              9 12 Hs tab1 world1 tab2 world2 eq_refl eq_refl eq_refl)
    as (b & c0 & g0 & a & E1 & E2 & _ & Hc).
  exists b, c0, g0, a. exact (conj E1 (conj E2 (Hc eq_refl))).
Defined.

(** ** Close / collapse *)

Lemma sessions_set_closedHandlers hs q :
  sessions (set_closedHandlers hs q) = sessions q.
Proof.
  unfold sessions. destruct q as [a c lf pr ss f s t0 t1 t2 h].
  destruct ss; reflexivity.
Qed.

Lemma GetLastFocusedTerminalControl_set_closedHandlers hs q :
  GetLastFocusedTerminalControl (set_closedHandlers hs q) =
  GetLastFocusedTerminalControl q.
Proof. destruct q; reflexivity. Qed.

Lemma GetLastFocusedProfile_set_closedHandlers hs q :
  GetLastFocusedProfile (set_closedHandlers hs q) = GetLastFocusedProfile q.
Proof. destruct q; reflexivity. Qed.

Lemma wf_children p first second :
  wf p = true ->
  _firstChild p = Some first -> _secondChild p = Some second ->
  _IsLeaf p = false /\ wf first = true /\ wf second = true.
Proof.
  intros W Ef Es. destruct (_IsLeaf p) eqn:L.
  - destruct (wf_leaf p W L) as (E & _). congruence.
  - destruct (wf_split p W L) as [(f & s & Ef' & Es' & Wf & Ws) _].
    rewrite Ef in Ef'. rewrite Es in Es'.
    injection Ef' as <-. injection Es' as <-. auto.
Qed.

(** X7: on a well-formed tree [_CloseChild] has a result exactly when the pane
    is a split: called on a leaf it dereferences a null child. *)
Theorem close_child_needs_split (closeFirst : bool) p w :
  wf p = true ->
  ((exists r, _CloseChild closeFirst p w = Some r) <-> _IsLeaf p = false).
Proof.
  intros W. split.
  - intros [r H]. destruct (_IsLeaf p) eqn:L; [|reflexivity].
    rewrite (CloseChild_on_leaf closeFirst p w W L) in H. discriminate.
  - intros L. destruct (CloseChild_wf closeFirst p w W L) as (p' & w' & H & _).
    eauto.
Qed.

Lemma close_child_needs_split_witness :
  _CloseChild true tab0 world0 = None /\
  exists r, _CloseChild true tab2 world2 = Some r.
Proof.
  split; [reflexivity|].
  exact (proj2 (close_child_needs_split true tab2 world2 eq_refl) eq_refl).
Defined.

(** X8: closing a child of a well-formed split leaves exactly the sessions of
    the other child, in their order: every session of the closed subtree is
    dropped and none of the kept subtree is. *)
Theorem close_child_keeps_sessions (closeFirst : bool) p first second w p' w' :
  wf p = true ->
  _firstChild p = Some first -> _secondChild p = Some second ->
  _CloseChild closeFirst p w = Some (p', w') ->
  sessions p' = sessions (if closeFirst then second else first).
Proof.
  intros W Ef Es H.
  destruct (wf_children p W Ef Es) as (L & Wf & Ws).
  assert (Wr : wf (if closeFirst then second else first) = true)
    by (destruct closeFirst; assumption).
  destruct (_IsLeaf (if closeFirst then second else first)) eqn:Lr.
  - destruct (wf_leaf _ Wr Lr) as (_ & _ & [c Ec] & _).
    rewrite (CloseChild_leaf closeFirst p w Ef Es Lr Ec) in H.
    injection H as <- <-.
    rewrite (sessions_leaf _ Lr). reflexivity.
  - destruct (wf_split _ Wr Lr) as [(rf & rs & Erf & Ers & _ & _) _].
    rewrite (CloseChild_split closeFirst p w Ef Es Lr Erf Ers) in H.
    injection H as <- <-.
    rewrite (sessions_split _ Lr Erf Ers).
    erewrite sessions_split; [ | exact Lr | reflexivity | reflexivity ].
    rewrite !sessions_set_closedHandlers. reflexivity.
Qed.

Lemma close_child_keeps_sessions_witness :
  sessions tab2 = [(Some 10, Some 7); (Some 11, Some 8); (Some 12, Some 9)] /\
  at_pane 1 (_CloseChild true) tab2 world2 = Some (tab4, world4) /\
  sessions tab4 = [(Some 11, Some 8); (Some 12, Some 9)].
Proof.
  split; [reflexivity|]. split; [reflexivity|].
  exact (@close_child_keeps_sessions true tab2 _ _ world2 tab4 world4
           eq_refl eq_refl eq_refl eq_refl).
Defined.

(** X9: when the kept child of a well-formed split is itself a split, closing
    the other child transfers no focus: the two last-focused queries answer
    on the node what they answered on the kept child, whatever the marks in
    the closed subtree were, and no call is made on any control. *)
Theorem close_child_split_keeps_marks
    (closeFirst : bool) p first second w p' w' :
  wf p = true ->
  _firstChild p = Some first -> _secondChild p = Some second ->
  _IsLeaf (if closeFirst then second else first) = false ->
  _CloseChild closeFirst p w = Some (p', w') ->
  GetLastFocusedTerminalControl p' =
    GetLastFocusedTerminalControl (if closeFirst then second else first) /\
  GetLastFocusedProfile p' =
    GetLastFocusedProfile (if closeFirst then second else first) /\
  count_lastFocused p' =
    count_lastFocused (if closeFirst then second else first) /\
  calls w' = calls w.
Proof.
  intros W Ef Es Lr H.
  destruct (wf_children p W Ef Es) as (L & Wf & Ws).
  assert (Wr : wf (if closeFirst then second else first) = true)
    by (destruct closeFirst; assumption).
  destruct (wf_split _ Wr Lr) as [(rf & rs & Erf & Ers & _ & _) _].
  rewrite (CloseChild_split closeFirst p w Ef Es Lr Erf Ers) in H.
  injection H as <- <-.
  split; [|split; [|split]].
  - rewrite (GetLastFocusedTerminalControl_eq
               (if closeFirst then second else first)), Lr, Erf, Ers.
    rewrite GetLastFocusedTerminalControl_eq.
    unfold collapsed_split, _IsLeaf in *.
    cbn [_splitState _firstChild _secondChild]. rewrite Lr.
    rewrite !GetLastFocusedTerminalControl_set_closedHandlers. reflexivity.
  - rewrite (GetLastFocusedProfile_eq
               (if closeFirst then second else first)), Lr, Erf, Ers.
    rewrite GetLastFocusedProfile_eq.
    unfold collapsed_split, _IsLeaf in *.
    cbn [_splitState _firstChild _secondChild]. rewrite Lr.
    rewrite !GetLastFocusedProfile_set_closedHandlers. reflexivity.
  - apply count_collapsed_split; assumption.
  - reflexivity.
Qed.

Lemma close_child_split_keeps_marks_witness :
  GetLastFocusedTerminalControl tab2_marked10 = Some (Some 10) /\
  exists p' w',
    _CloseChild true tab2_marked10 world2 = Some (p', w') /\
    GetLastFocusedTerminalControl p' = Some None /\
    calls w' = [].
Proof.
  split; [reflexivity|].
  destruct (CloseChild_wf true tab2_marked10 world2 eq_refl eq_refl)
    as (p' & w' & H & _).
  exists p', w'.
  destruct (@close_child_split_keeps_marks true tab2_marked10
              (a_leaf 2 10 true 7 2 [(4, mkClosedHandler 1 true)])
              (mkPane 3 None false None SplitState.Horizontal
                 (Some (a_leaf 4 11 false 8 6 [(8, mkClosedHandler 3 true)]))
                 (Some (a_leaf 5 12 false 9 7 [(9, mkClosedHandler 3 false)]))
                 3 8 9 [(5, mkClosedHandler 1 false)])
              world2 p' w' eq_refl eq_refl eq_refl eq_refl H)
    as (Hc & _ & _ & Hw).
  exact (conj H (conj Hc Hw)).
Defined.

(** X10: [_CloseChild] unsubscribes nothing from a control and queues nothing:
    the subscriptions to ConnectionClosed afterwards are those before,
    followed by at most one new subscription, of the node itself on the
    control it adopts; in particular the subscription of the kept leaf,
    which is destroyed, stays on that control. *)
Theorem close_child_keeps_subscriptions (closeFirst : bool) p w p' w' :
  wf p = true ->
  _CloseChild closeFirst p w = Some (p', w') ->
  exists added,
    connectionClosed w' = connectionClosed w ++ added /\
    dispatcher w' = dispatcher w /\
    (added = [] /\ _IsLeaf p' = false \/
     exists c, added = [(c, (_connectionClosedToken p', this p))] /\
               _control p' = Some c /\ _IsLeaf p' = true).
Proof.
  intros W H. destruct (_IsLeaf p) eqn:L;
    [rewrite (CloseChild_on_leaf closeFirst p w W L) in H; discriminate|].
  destruct (wf_split p W L) as [(f & s & Ef & Es & Wf & Ws) _].
  assert (Wr : wf (if closeFirst then s else f) = true)
    by (destruct closeFirst; assumption).
  destruct (_IsLeaf (if closeFirst then s else f)) eqn:Lr.
  - destruct (wf_leaf _ Wr Lr) as (_ & _ & [c Ec] & _).
    rewrite (CloseChild_leaf closeFirst p w Ef Es Lr Ec) in H.
    injection H as <- <-.
    exists [(c, (next_token w, this p))]. split; [reflexivity|].
    split; [reflexivity|]. right. exists c.
    split; [reflexivity|]. split; [exact Ec | reflexivity].
  - destruct (wf_split _ Wr Lr) as [(rf & rs & Erf & Ers & _ & _) _].
    rewrite (CloseChild_split closeFirst p w Ef Es Lr Erf Ers) in H.
    injection H as <- <-.
    exists []. split; [simpl; rewrite app_nil_r; reflexivity|].
    split; [reflexivity|]. left. split; [reflexivity | exact Lr].
Qed.

Lemma close_child_keeps_subscriptions_witness :
  exists p' w' added,
    _CloseChild false tab1 world1 = Some (p', w') /\
    connectionClosed w' = [(10, (2, 2)); (11, (3, 3))] ++ added /\
    dispatcher w' = [].
Proof.
  destruct (CloseChild_wf false tab1 world1 eq_refl eq_refl)
    as (p' & w' & H & _).
  destruct (@close_child_keeps_subscriptions false tab1 world1 p' w'
              eq_refl H) as (added & Hs & Hd & _).
  exists p', w', added. exact (conj H (conj Hs Hd)).
Defined.

(** ** A session exits *)

Lemma run_subscribers_app CloseOnExit root c l1 l2 w :
  run_subscribers CloseOnExit root c (l1 ++ l2) w =
  match run_subscribers CloseOnExit root c l1 w with
  | Some (_, w1) => run_subscribers CloseOnExit root c l2 w1
  | None => None
  end.
Proof.
  revert w. induction l1 as [|[c' [tok a]] l1 IH]; intros w; [reflexivity|].
  simpl. unfold bind.
  destruct (if c' =? c then on_ConnectionClosed CloseOnExit root c a
            else ret tt) as [[u w1]|]; [apply IH | reflexivity].
Qed.

Lemma run_subscribers_other CloseOnExit root c subs w :
  (forall s, In s subs -> fst s <> c) ->
  run_subscribers CloseOnExit root c subs w = Some (tt, w).
Proof.
  induction subs as [|[c' [tok a]] rest IH]; intros H; [reflexivity|].
  simpl. unfold bind.
  destruct (c' =? c) eqn:E.
  - apply Nat.eqb_eq in E. exfalso. apply (H (c', (tok, a))); [left|]; auto.
  - simpl. apply IH. intros s Hs. apply H. right. exact Hs.
Qed.

(** A subscription whose pane is no longer in the tree. *)
Lemma run_subscribers_stale CloseOnExit root c tok a subs w :
  CloseOnExit c = true ->
  In (c, (tok, a)) subs -> find_pane a root = None ->
  run_subscribers CloseOnExit root c subs w = None.
Proof.
  intros Hc Hin Ha. revert w.
  induction subs as [|[c' [tok' a']] rest IH]; intros w; [contradiction|].
  simpl. unfold bind. destruct Hin as [E|Hin].
  - injection E as -> -> ->. rewrite Nat.eqb_refl.
    unfold on_ConnectionClosed. rewrite Hc. unfold bind, deref.
    rewrite Ha. reflexivity.
  - destruct (if c' =? c then on_ConnectionClosed CloseOnExit root c a'
              else ret tt) as [[u w1]|]; [apply IH, Hin | reflexivity].
Qed.

(** X11: a leaf is split and the new session exits with CloseOnExit set (no one
    else being subscribed to the new control): the new pane raises Closed,
    the node is asked once to close its second child, and running that task
    makes the node a leaf again that holds the original session only. *)
Theorem new_session_exit d focused state g1 c1 CloseOnExit p c0 g0 w :
  _IsLeaf p = true -> _control p = Some c0 -> _profile p = Some g0 ->
  c0 <> c1 -> this p < next_pane w ->
  (forall s, In s (connectionClosed w) -> fst s <> c1) ->
  dispatcher w = [] ->
  CloseOnExit c1 = true ->
  exists p1 w1 w2 p3 w3,
    Split_ d focused state g1 (Some c1) p w = Some (p1, w1) /\
    signal_ConnectionClosed CloseOnExit p1 c1 w1 = Some (tt, w2) /\
    dispatcher w2 = [mkClosedHandler (this p) false] /\
    run_next_task p1 w2 = Some (p3, w3) /\
    this p3 = this p /\ _IsLeaf p3 = true /\
    sessions p3 = [(Some c0, Some g0)] /\
    dispatcher w3 = [].
Proof.
  intros L Ec Eg Hne Hfresh Hsubs Hq Hcoe.
  assert (N1 : (this p =? next_pane w) = false) by (apply Nat.eqb_neq; lia).
  assert (N2 : (this p =? S (next_pane w)) = false) by (apply Nat.eqb_neq; lia).
  assert (N3 : (next_pane w =? S (next_pane w)) = false)
    by (apply Nat.eqb_neq; lia).
  assert (N4 : (c0 =? c1) = false) by (apply Nat.eqb_neq; exact Hne).
  exists (split_parent d state g1 c1 p c0 g0 w), (split_world c1 p c0 w).
  assert (Hsig : signal_ConnectionClosed CloseOnExit
                   (split_parent d state g1 c1 p c0 g0 w) c1
                   (split_world c1 p c0 w)
                 = Some (tt,
                     mkWorld (connectionClosed (split_world c1 p c0 w))
                             [mkClosedHandler (this p) false]
                             (calls w)
                             (next_token (split_world c1 p c0 w))
                             (next_pane (split_world c1 p c0 w)))).
  { unfold signal_ConnectionClosed, split_world.
    cbn [connectionClosed next_token next_pane].
    rewrite run_subscribers_app.
    rewrite run_subscribers_other.
    - cbn [run_subscribers]. rewrite Nat.eqb_refl. unfold bind at 1.
      unfold on_ConnectionClosed. rewrite Hcoe.
      unfold split_parent, split_first, split_second.
      unfold bind at 1. unfold deref at 1.
      cbn [find_pane this _firstChild _secondChild].
      rewrite N2, N3, Nat.eqb_refl. unfold ret at 1.
      cbn [_closedHandlers raise_Closed owner].
      unfold bind at 1. unfold deref, bind at 1.
      cbn [find_pane this]. rewrite Nat.eqb_refl. unfold ret at 1.
      unfold bind, RunAsync, ret, split_world. cbn.
      rewrite Hq. reflexivity.
    - intros s Hs. apply in_app_or in Hs. destruct Hs as [Hs|[<-|[]]].
      + apply filter_In in Hs. apply Hsubs, Hs.
      + exact Hne. }
  eexists. do 2 eexists.
  split; [apply Split_leaf; assumption|].
  split; [exact Hsig|]. split; [reflexivity|].
  split.
  - unfold run_next_task. cbn [dispatcher owner closeFirst].
    rewrite at_pane_eq.
    unfold split_parent at 1. cbn [this]. rewrite Nat.eqb_refl.
    apply (@CloseChild_leaf false _ (split_first d p c0 g0 w)
             (split_second d g1 c1 p w) c0); reflexivity.
  - repeat split.
Qed.

Lemma new_session_exit_witness :
  exists p1 w1 w2 p3 w3,
    SplitVertical false (focus_on 10) 8 (Some 11) tab0 world0 = Some (p1, w1) /\
    signal_ConnectionClosed always p1 11 w1 = Some (tt, w2) /\
    run_next_task p1 w2 = Some (p3, w3) /\
    sessions p3 = [(Some 10, Some 7)].
Proof.
  assert (Hne : 10 <> 11) by discriminate.
  assert (Hfresh : this tab0 < next_pane world0) by (apply le_n).
  assert (Hsubs : forall s, In s (connectionClosed world0) -> fst s <> 11).
  { intros s [<-|[]]. discriminate. }
  destruct (@new_session_exit false (focus_on 10) SplitState.Vertical 8 11
              always tab0 10 7 world0 eq_refl eq_refl eq_refl Hne Hfresh
              Hsubs eq_refl eq_refl)
    as (p1 & w1 & w2 & p3 & w3 & H1 & H2 & _ & H3 & _ & _ & H4 & _).
  exists p1, w1, w2, p3, w3. exact (conj H1 (conj H2 (conj H3 H4))).
Defined.

(** X12: a leaf is split and the original session exits with CloseOnExit set
    (the leaf having been the only subscriber of its control): the first new
    pane raises Closed, the node is asked once to close its first child, and
    running that task makes the node a leaf that holds the new session
    only. *)
Theorem original_session_exit d focused state g1 c1 CloseOnExit p c0 g0 w :
  _IsLeaf p = true -> _control p = Some c0 -> _profile p = Some g0 ->
  c0 <> c1 -> this p < next_pane w ->
  (forall s, In s (connectionClosed w) ->
             fst s = c0 -> fst (snd s) = _connectionClosedToken p) ->
  dispatcher w = [] ->
  CloseOnExit c0 = true ->
  exists p1 w1 w2 p3 w3,
    Split_ d focused state g1 (Some c1) p w = Some (p1, w1) /\
    signal_ConnectionClosed CloseOnExit p1 c0 w1 = Some (tt, w2) /\
    dispatcher w2 = [mkClosedHandler (this p) true] /\
    run_next_task p1 w2 = Some (p3, w3) /\
    this p3 = this p /\ _IsLeaf p3 = true /\
    sessions p3 = [(Some c1, Some g1)] /\
    dispatcher w3 = [].
Proof.
  intros L Ec Eg Hne Hfresh Hsubs Hq Hcoe.
  assert (N1 : (this p =? next_pane w) = false) by (apply Nat.eqb_neq; lia).
  assert (N4 : (c1 =? c0) = false)
    by (apply Nat.eqb_neq; intros E; apply Hne; symmetry; exact E).
  exists (split_parent d state g1 c1 p c0 g0 w), (split_world c1 p c0 w).
  assert (Hsig : signal_ConnectionClosed CloseOnExit
                   (split_parent d state g1 c1 p c0 g0 w) c0
                   (split_world c1 p c0 w)
                 = Some (tt,
                     mkWorld (connectionClosed (split_world c1 p c0 w))
                             [mkClosedHandler (this p) true]
                             (calls w)
                             (next_token (split_world c1 p c0 w))
                             (next_pane (split_world c1 p c0 w)))).
  { unfold signal_ConnectionClosed, split_world.
    cbn [connectionClosed next_token next_pane].
    rewrite !run_subscribers_app.
    rewrite run_subscribers_other.
    - cbn [run_subscribers]. rewrite Nat.eqb_refl, N4. unfold bind at 1.
      unfold on_ConnectionClosed. rewrite Hcoe.
      unfold split_parent, split_first, split_second.
      unfold bind at 1. unfold deref at 1.
      cbn [find_pane this _firstChild _secondChild].
      rewrite N1, Nat.eqb_refl. unfold ret at 1.
      cbn [_closedHandlers raise_Closed owner].
      unfold bind at 1. unfold deref, bind at 1.
      cbn [find_pane this]. rewrite Nat.eqb_refl. unfold ret at 1.
      unfold bind, RunAsync, ret. cbn.
      rewrite Hq. reflexivity.
    - intros s Hs E. apply filter_In in Hs. destruct Hs as [Hs HF].
      pose proof (Hsubs s Hs E) as Et. destruct s as [c' [tok a]].
      simpl in *. subst c' tok. rewrite !Nat.eqb_refl in HF. discriminate. }
  eexists. do 2 eexists.
  split; [apply Split_leaf; assumption|].
  split; [exact Hsig|]. split; [reflexivity|].
  split.
  - unfold run_next_task. cbn [dispatcher owner closeFirst].
    rewrite at_pane_eq.
    unfold split_parent at 1. cbn [this]. rewrite Nat.eqb_refl.
    apply (@CloseChild_leaf true _ (split_first d p c0 g0 w)
             (split_second d g1 c1 p w) c1); reflexivity.
  - repeat split.
Qed.

Lemma original_session_exit_witness :
  exists p1 w1 w2 p3 w3,
    SplitVertical false (focus_on 10) 8 (Some 11) tab0 world0 = Some (p1, w1) /\
    signal_ConnectionClosed always p1 10 w1 = Some (tt, w2) /\
    run_next_task p1 w2 = Some (p3, w3) /\
    sessions p3 = [(Some 11, Some 8)].
Proof.
  assert (Hne : 10 <> 11) by discriminate.
  assert (Hfresh : this tab0 < next_pane world0) by (apply le_n).
  assert (Hsubs : forall s, In s (connectionClosed world0) ->
                    fst s = 10 -> fst (snd s) = _connectionClosedToken tab0).
  { intros s [<-|[]] _. reflexivity. }
  destruct (@original_session_exit false (focus_on 10) SplitState.Vertical 8 11
              always tab0 10 7 world0 eq_refl eq_refl eq_refl Hne Hfresh
              Hsubs eq_refl eq_refl)
    as (p1 & w1 & w2 & p3 & w3 & H1 & H2 & _ & H3 & _ & _ & H4 & _).
  exists p1, w1, w2, p3, w3. exact (conj H1 (conj H2 (conj H3 H4))).
Defined.

(** X13: a root leaf is split and its second child is closed at once.  The
    control of the surviving session is then subscribed twice: by the first
    child of the split, which has been destroyed, and behind it by the node
    itself.  When that session exits with CloseOnExit set, the delegate of
    the destroyed pane is the first to run, through its captured [this]:
    the signal has no result. *)
Theorem survivor_exit_after_collapse
    d focused state g1 c1 CloseOnExit p c0 g0 w :
  _IsLeaf p = true -> _control p = Some c0 -> _profile p = Some g0 ->
  this p <> next_pane w ->
  CloseOnExit c0 = true ->
  exists p1 w1 p2 w2,
    Split_ d focused state g1 (Some c1) p w = Some (p1, w1) /\
    _CloseChild false p1 w1 = Some (p2, w2) /\
    In (c0, (next_token w, next_pane w)) (connectionClosed w2) /\
    In (c0, (_connectionClosedToken p2, this p2)) (connectionClosed w2) /\
    find_pane (next_pane w) p2 = None /\
    signal_ConnectionClosed CloseOnExit p2 c0 w2 = None.
Proof.
  intros L Ec Eg Hne Hcoe.
  assert (N : (this p =? next_pane w) = false) by (apply Nat.eqb_neq; exact Hne).
  exists (split_parent d state g1 c1 p c0 g0 w), (split_world c1 p c0 w).
  do 2 eexists.
  split; [apply Split_leaf; assumption|].
  split; [apply (@CloseChild_leaf false _ (split_first d p c0 g0 w)
                   (split_second d g1 c1 p w) c0); reflexivity|].
  assert (H1 : In (c0, (next_token w, next_pane w))
                  (connectionClosed
                     (collapsed_leaf_world
                        (split_parent d state g1 c1 p c0 g0 w)
                        (split_first d p c0 g0 w)
                        (split_second d g1 c1 p w)
                        (split_world c1 p c0 w) c0))).
  { unfold collapsed_leaf_world, split_world. cbn [connectionClosed].
    apply in_or_app. left. apply in_or_app. left. apply in_or_app. right.
    left. reflexivity. }
  assert (H2 : find_pane (next_pane w)
                 (collapsed_leaf (split_parent d state g1 c1 p c0 g0 w)
                    (split_first d p c0 g0 w) (split_second d g1 c1 p w)
                    (split_first d p c0 g0 w) (split_world c1 p c0 w))
               = None).
  { unfold collapsed_leaf, split_parent.
    cbn [find_pane this _firstChild _secondChild]. rewrite N. reflexivity. }
  split; [exact H1|]. split; [|split; [exact H2|]].
  - unfold collapsed_leaf_world, collapsed_leaf, split_world, split_parent.
    cbn [connectionClosed next_token this _connectionClosedToken].
    apply in_or_app. right. left. reflexivity.
  - unfold signal_ConnectionClosed.
    exact (run_subscribers_stale CloseOnExit _ c0 _ _ _ _ Hcoe H1 H2).
Qed.

Lemma survivor_exit_after_collapse_witness :
  exists p1 w1 p2 w2,
    SplitVertical false (focus_on 10) 8 (Some 11) tab0 world0 = Some (p1, w1) /\
    _CloseChild false p1 w1 = Some (p2, w2) /\
    In (10, (2, 2)) (connectionClosed w2) /\
    find_pane 2 p2 = None /\
    signal_ConnectionClosed always p2 10 w2 = None.
Proof.
  assert (Hne : this tab0 <> next_pane world0) by discriminate.
  destruct (@survivor_exit_after_collapse false (focus_on 10)
              SplitState.Vertical 8 11 always tab0 10 7 world0
              eq_refl eq_refl eq_refl Hne eq_refl)
    as (p1 & w1 & p2 & w2 & H1 & H2 & H3 & _ & H4 & H5).
  exists p1, w1, p2, w2.
  exact (conj H1 (conj H2 (conj H3 (conj H4 H5)))).
Defined.

(** The two signals on the tree a split has just made, in any world that
    has the subscriptions the split left. *)
Lemma signal_first_of_split d state g1 c1 CloseOnExit p c0 g0 w w1 :
  c0 <> c1 -> this p < next_pane w ->
  (forall s, In s (connectionClosed w) ->
             fst s = c0 -> fst (snd s) = _connectionClosedToken p) ->
  CloseOnExit c0 = true ->
  connectionClosed w1 = connectionClosed (split_world c1 p c0 w) ->
  signal_ConnectionClosed CloseOnExit
    (split_parent d state g1 c1 p c0 g0 w) c0 w1
  = Some (tt, mkWorld (connectionClosed w1)
                      (dispatcher w1 ++ [mkClosedHandler (this p) true])
                      (calls w1) (next_token w1) (next_pane w1)).
Proof.
  intros Hne Hfresh Hsubs Hcoe Hw1.
  assert (N1 : (this p =? next_pane w) = false) by (apply Nat.eqb_neq; lia).
  assert (N4 : (c1 =? c0) = false)
    by (apply Nat.eqb_neq; intros E; apply Hne; symmetry; exact E).
  unfold signal_ConnectionClosed. rewrite Hw1. unfold split_world.
  cbn [connectionClosed]. rewrite !run_subscribers_app.
  rewrite run_subscribers_other.
  - cbn [run_subscribers]. rewrite Nat.eqb_refl, N4. unfold bind at 1.
    unfold on_ConnectionClosed. rewrite Hcoe.
    unfold split_parent, split_first, split_second.
    unfold bind at 1. unfold deref at 1.
    cbn [find_pane this _firstChild _secondChild].
    rewrite N1, Nat.eqb_refl. unfold ret at 1.
    cbn [_closedHandlers raise_Closed owner].
    unfold bind at 1. unfold deref, bind at 1.
    cbn [find_pane this]. rewrite Nat.eqb_refl. unfold ret at 1.
    unfold bind, RunAsync, ret. rewrite Hw1. reflexivity.
  - intros s Hs E. apply filter_In in Hs. destruct Hs as [Hs HF].
    pose proof (Hsubs s Hs E) as Et. destruct s as [c' [tok a]].
    simpl in *. subst c' tok. rewrite !Nat.eqb_refl in HF. discriminate.
Qed.

Lemma signal_second_of_split d state g1 c1 CloseOnExit p c0 g0 w w1 :
  c0 <> c1 -> this p < next_pane w ->
  (forall s, In s (connectionClosed w) -> fst s <> c1) ->
  CloseOnExit c1 = true ->
  connectionClosed w1 = connectionClosed (split_world c1 p c0 w) ->
  signal_ConnectionClosed CloseOnExit
    (split_parent d state g1 c1 p c0 g0 w) c1 w1
  = Some (tt, mkWorld (connectionClosed w1)
                      (dispatcher w1 ++ [mkClosedHandler (this p) false])
                      (calls w1) (next_token w1) (next_pane w1)).
Proof.
  intros Hne Hfresh Hsubs Hcoe Hw1.
  assert (N2 : (this p =? S (next_pane w)) = false) by (apply Nat.eqb_neq; lia).
  assert (N3 : (next_pane w =? S (next_pane w)) = false)
    by (apply Nat.eqb_neq; lia).
  unfold signal_ConnectionClosed. rewrite Hw1. unfold split_world.
  cbn [connectionClosed]. rewrite run_subscribers_app.
  rewrite run_subscribers_other.
  - cbn [run_subscribers]. rewrite Nat.eqb_refl. unfold bind at 1.
    unfold on_ConnectionClosed. rewrite Hcoe.
    unfold split_parent, split_first, split_second.
    unfold bind at 1. unfold deref at 1.
    cbn [find_pane this _firstChild _secondChild].
    rewrite N2, N3, Nat.eqb_refl. unfold ret at 1.
    cbn [_closedHandlers raise_Closed owner].
    unfold bind at 1. unfold deref, bind at 1.
    cbn [find_pane this]. rewrite Nat.eqb_refl. unfold ret at 1.
    unfold bind, RunAsync, ret. rewrite Hw1. reflexivity.
  - intros s Hs. apply in_app_or in Hs. destruct Hs as [Hs|[<-|[]]].
    + apply filter_In in Hs. apply Hsubs, Hs.
    + exact Hne.
Qed.

(** X14: a leaf is split and both sessions exit with CloseOnExit set before the
    dispatcher runs: two tasks are queued for the node.  The first makes it
    a leaf; the second then calls [_CloseChild] on a leaf, which
    dereferences a null child: it has no result. *)
Theorem both_sessions_exit d focused state g1 c1 CloseOnExit p c0 g0 w :
  _IsLeaf p = true -> _control p = Some c0 -> _profile p = Some g0 ->
  c0 <> c1 -> this p < next_pane w ->
  (forall s, In s (connectionClosed w) ->
             fst s = c0 -> fst (snd s) = _connectionClosedToken p) ->
  (forall s, In s (connectionClosed w) -> fst s <> c1) ->
  dispatcher w = [] ->
  CloseOnExit c0 = true -> CloseOnExit c1 = true ->
  exists p1 w1 w2 w3 p4 w4,
    Split_ d focused state g1 (Some c1) p w = Some (p1, w1) /\
    signal_ConnectionClosed CloseOnExit p1 c0 w1 = Some (tt, w2) /\
    signal_ConnectionClosed CloseOnExit p1 c1 w2 = Some (tt, w3) /\
    dispatcher w3 =
      [mkClosedHandler (this p) true; mkClosedHandler (this p) false] /\
    run_next_task p1 w3 = Some (p4, w4) /\
    sessions p4 = [(Some c1, Some g1)] /\
    dispatcher w4 = [mkClosedHandler (this p) false] /\
    run_next_task p4 w4 = None.
Proof.
  intros L Ec Eg Hne Hfresh Hs0 Hs1 Hq Hcoe0 Hcoe1.
  exists (split_parent d state g1 c1 p c0 g0 w), (split_world c1 p c0 w).
  do 4 eexists.
  split; [apply Split_leaf; assumption|].
  split; [apply (@signal_first_of_split d state g1 c1 CloseOnExit p c0 g0 w
                   (split_world c1 p c0 w) Hne Hfresh Hs0 Hcoe0 eq_refl)|].
  split; [eapply signal_second_of_split;
            [exact Hne | exact Hfresh | exact Hs1 | exact Hcoe1 | reflexivity]|].
  split; [unfold split_world; cbn [dispatcher]; rewrite Hq; reflexivity|].
  split.
  - unfold run_next_task, split_world.
    cbn [dispatcher connectionClosed calls next_token next_pane]. rewrite Hq.
    cbn [app owner closeFirst]. rewrite at_pane_eq.
    unfold split_parent at 1. cbn [this]. rewrite Nat.eqb_refl.
    apply (@CloseChild_leaf true _ (split_first d p c0 g0 w)
             (split_second d g1 c1 p w) c1); reflexivity.
  - split; [reflexivity|]. split; [reflexivity|].
    unfold run_next_task, collapsed_leaf_world. cbn [dispatcher].
    cbn [owner closeFirst]. rewrite at_pane_eq.
    unfold collapsed_leaf at 1, split_parent at 1. cbn [this].
    rewrite Nat.eqb_refl. reflexivity.
Qed.

Lemma both_sessions_exit_witness :
  exists p1 w1 w2 w3 p4 w4,
    SplitVertical false (focus_on 10) 8 (Some 11) tab0 world0 = Some (p1, w1) /\
    signal_ConnectionClosed always p1 10 w1 = Some (tt, w2) /\
    signal_ConnectionClosed always p1 11 w2 = Some (tt, w3) /\
    run_next_task p1 w3 = Some (p4, w4) /\
    run_next_task p4 w4 = None.
Proof.
  assert (Hne : 10 <> 11) by discriminate.
  assert (Hfresh : this tab0 < next_pane world0) by (apply le_n).
  assert (Hs0 : forall s, In s (connectionClosed world0) ->
                  fst s = 10 -> fst (snd s) = _connectionClosedToken tab0).
  { intros s [<-|[]] _. reflexivity. }
  assert (Hs1 : forall s, In s (connectionClosed world0) -> fst s <> 11).
  { intros s [<-|[]]. discriminate. }
  destruct (@both_sessions_exit false (focus_on 10) SplitState.Vertical 8 11
              always tab0 10 7 world0 eq_refl eq_refl eq_refl Hne Hfresh
              Hs0 Hs1 eq_refl eq_refl eq_refl)
    as (p1 & w1 & w2 & w3 & p4 & w4 & H1 & H2 & H3 & _ & H4 & _ & _ & H5).
  exists p1, w1, w2, w3, p4, w4.
  exact (conj H1 (conj H2 (conj H3 (conj H4 H5)))).
Defined.

(** ** What the methods leave alone *)

(** X15: a split, the closing of a child and a focus refresh keep the address of
    the pane they are called on and the delegates subscribed to its Closed
    event: what the owner of the pane holds stays valid. *)
Theorem methods_keep_identity p w p' w' :
  wf p = true ->
  (forall d focused state profile control,
     Split_ d focused state profile control p w = Some (p', w') ->
     this p' = this p /\ _closedHandlers p' = _closedHandlers p) /\
  (forall closeFirst : bool,
     _CloseChild closeFirst p w = Some (p', w') ->
     this p' = this p /\ _closedHandlers p' = _closedHandlers p) /\
  (forall focused,
     CheckFocus focused p w = Some (p', w') ->
     this p' = this p /\ _closedHandlers p' = _closedHandlers p).
Proof.
  intros W. split; [|split].
  - intros d focused state profile control H. destruct (_IsLeaf p) eqn:L.
    + destruct control as [c1|]; [|rewrite Split_leaf_null in H; congruence].
      destruct (wf_leaf p W L) as (_ & _ & [c0 Ec] & [g0 Eg]).
      rewrite (Split_leaf d focused state profile c1 p w L Ec Eg) in H.
      injection H as <- <-. split; reflexivity.
    + destruct (wf_split p W L) as [(f & s & Ef & Es & _ & _) _].
      rewrite Split_eq, L, Ef, Es in H. simpl in H.
      destruct (_HasFocusedChild focused f).
      * unfold bind in H.
        destruct (Split_ d focused state profile control f w)
          as [[f' w1]|]; [|discriminate].
        injection H as <- <-. destruct p; split; reflexivity.
      * destruct (_HasFocusedChild focused s).
        -- unfold bind in H.
           destruct (Split_ d focused state profile control s w)
             as [[s' w1]|]; [|discriminate].
           injection H as <- <-. destruct p; split; reflexivity.
        -- injection H as <- <-. split; reflexivity.
  - intros closeFirst H. destruct (_IsLeaf p) eqn:L;
      [rewrite (CloseChild_on_leaf closeFirst p w W L) in H; discriminate|].
    destruct (wf_split p W L) as [(f & s & Ef & Es & Wf & Ws) _].
    assert (Wr : wf (if closeFirst then s else f) = true)
      by (destruct closeFirst; assumption).
    destruct (_IsLeaf (if closeFirst then s else f)) eqn:Lr.
    + destruct (wf_leaf _ Wr Lr) as (_ & _ & [c Ec] & _).
      rewrite (CloseChild_leaf closeFirst p w Ef Es Lr Ec) in H.
      injection H as <- <-. split; reflexivity.
    + destruct (wf_split _ Wr Lr) as [(rf & rs & Erf & Ers & _ & _) _].
      rewrite (CloseChild_split closeFirst p w Ef Es Lr Erf Ers) in H.
      injection H as <- <-. split; reflexivity.
  - intros focused H. rewrite CheckFocus_eq in H. destruct (_IsLeaf p) eqn:L.
    + cbv zeta in H. unfold ret in H. injection H as <- <-.
      destruct p; split; reflexivity.
    + destruct (wf_split p W L) as [(f & s & Ef & Es & _ & _) _].
      cbv zeta in H.
      destruct p as [a c lf pr ss x y t0 t1 t2 hs]. simpl in *. subst x y.
      unfold bind at 1 in H.
      destruct (CheckFocus focused f w) as [[f' w1]|]; [|discriminate].
      unfold bind in H.
      destruct (CheckFocus focused s w1) as [[s' w2]|]; [|discriminate].
      injection H as <- <-. split; reflexivity.
Qed.

Lemma methods_keep_identity_witness :
  wf tab1 = true /\ this tab2 = this tab1 /\ this tab4 = this tab2 /\
  _closedHandlers tab2 = _closedHandlers tab1.
Proof.
  split; [reflexivity|].
  destruct (@methods_keep_identity tab1 world1 tab2 world2 eq_refl)
    as (H1 & _ & _).
  destruct (@methods_keep_identity tab2 world2 tab4 world4 eq_refl)
    as (_ & H2 & _).
  destruct (H1 false (focus_on 11) SplitState.Horizontal 9 (Some 12) eq_refl)
    as [Ha Hh].
  destruct (H2 true eq_refl) as [Hb _].
  exact (conj Ha (conj Hb Hh)).
Defined.

(** X6: a split of a well-formed tree calls nothing on any control and queues
    nothing.  Either it changes nothing at all, or it revokes from one leaf
    of the tree the subscription of that leaf to the ConnectionClosed event
    of its control and appends two subscriptions: one on that control and
    one on the new control. *)
Theorem split_subscriptions d focused state profile c1 p w p' w' :
  wf p = true ->
  Split_ d focused state profile (Some c1) p w = Some (p', w') ->
  calls w' = calls w /\ dispatcher w' = dispatcher w /\
  ((p' = p /\ w' = w) \/
   exists l c0 t0 a0 t1 a1,
     In l (leaves p) /\ _control l = Some c0 /\
     connectionClosed w' =
       filter (fun s => negb ((fst s =? c0)
                              && (fst (snd s) =? _connectionClosedToken l)))
              (connectionClosed w)
       ++ [(c0, (t0, a0)); (c1, (t1, a1))]).
Proof.
  revert w p' w'. induction p as [p IHf IHs] using Pane_induction.
  intros w p' w' W H. destruct (_IsLeaf p) eqn:L.
  - destruct (wf_leaf p W L) as (_ & _ & [c0 Ec] & [g0 Eg]).
    rewrite (Split_leaf d focused state profile c1 p w L Ec Eg) in H.
    injection H as <- <-. split; [reflexivity|]. split; [reflexivity|].
    right. exists p, c0, (next_token w), (next_pane w),
             (S (next_token w)), (S (next_pane w)).
    split; [rewrite leaves_eq, L; left; reflexivity|].
    split; [exact Ec|].
    unfold split_world. cbn [connectionClosed].
    rewrite <- app_assoc. reflexivity.
  - destruct (wf_split p W L) as [(f & s & Ef & Es & Wf & Ws) _].
    rewrite Split_eq, L, Ef, Es in H. simpl in H.
    destruct (_HasFocusedChild focused f).
    + unfold bind in H.
      destruct (Split_ d focused state profile (Some c1) f w)
        as [[f' w1]|] eqn:E; [|discriminate].
      injection H as <- <-.
      destruct (IHf f Ef _ _ _ Wf E) as (Hc & Hd & Hr).
      split; [exact Hc|]. split; [exact Hd|].
      destruct Hr as [[-> ->]|(l & c0 & t0 & a0 & t1 & a1 & Hl & Hc0 & Hs)].
      * left. split; [apply set_firstChild_same, Ef | reflexivity].
      * right. exists l, c0, t0, a0, t1, a1.
        split; [|split; assumption].
        rewrite leaves_eq, L, Ef. apply in_or_app. left. exact Hl.
    + destruct (_HasFocusedChild focused s).
      * unfold bind in H.
        destruct (Split_ d focused state profile (Some c1) s w)
          as [[s' w1]|] eqn:E; [|discriminate].
        injection H as <- <-.
        destruct (IHs s Es _ _ _ Ws E) as (Hc & Hd & Hr).
        split; [exact Hc|]. split; [exact Hd|].
        destruct Hr as [[-> ->]|(l & c0 & t0 & a0 & t1 & a1 & Hl & Hc0 & Hs)].
        -- left. split; [apply set_secondChild_same, Es | reflexivity].
        -- right. exists l, c0, t0, a0, t1, a1.
           split; [|split; assumption].
           rewrite leaves_eq, L, Es. apply in_or_app. right. exact Hl.
      * injection H as <- <-. split; [reflexivity|]. split; [reflexivity|].
        left. split; reflexivity.
Qed.

Lemma split_subscriptions_witness :
  wf tab1 = true /\
  connectionClosed world1 = [(10, (2, 2)); (11, (3, 3))] /\
  connectionClosed world2 = [(10, (2, 2)); (11, (6, 4)); (12, (7, 5))] /\
  calls world2 = calls world1 /\ dispatcher world2 = dispatcher world1.
Proof.
  split; [reflexivity|]. split; [reflexivity|]. split; [reflexivity|].
  destruct (@split_subscriptions false (focus_on 11) SplitState.Horizontal
              9 12 tab1 world1 tab2 world2 eq_refl eq_refl) as (Hc & Hd & _).
  exact (conj Hc Hd).
Defined.

(** ** Reachable states *)

(** X16: in every reachable state of a tab every split pane has both children, no
    profile and no last-focused mark, and every leaf has a profile. *)
Theorem reachable_shape d discipline root w :
  reachable d discipline root w ->
  forall n, In n (nodes root) ->
    (_IsLeaf n = true <-> _profile n <> None) /\
    (_IsLeaf n = false ->
     _lastFocused n = false /\
     exists first second,
       _firstChild n = Some first /\ _secondChild n = Some second).
Proof.
  intros R n Hn.
  assert (W : wf root = true) by apply (reachable_inv R).
  pose proof (wf_nodes root W n Hn) as Hok. clear R W Hn.
  unfold node_ok in Hok.
  destruct (_IsLeaf n), (_firstChild n) as [f|], (_secondChild n) as [s|],
    (_control n), (_profile n), (_lastFocused n);
    simpl in Hok; try discriminate;
    (split; [split; intros; congruence || discriminate
            | intros; try discriminate; split; eauto]).
Qed.

Lemma reachable_shape_witness :
  reachable false any_focus tab4 world4 /\
  _lastFocused tab4 = false /\
  exists first second,
    _firstChild tab4 = Some first /\ _secondChild tab4 = Some second.
Proof.
  split; [exact (session_reachable any_focus)|].
  destruct (@reachable_shape false any_focus tab4 world4
              (session_reachable any_focus) tab4 (or_introl eq_refl))
    as (_ & H).
  exact (H eq_refl).
Defined.

(** A split with a control succeeds on every well-formed tree. *)
Lemma Split_returns d focused state profile c1 p :
  wf p = true ->
  forall w, exists p' w',
    Split_ d focused state profile (Some c1) p w = Some (p', w').
Proof.
  induction p as [p IHf IHs] using Pane_induction. intros W w.
  destruct (_IsLeaf p) eqn:L.
  - destruct (wf_leaf p W L) as (_ & _ & [c0 Ec] & [g0 Eg]).
    rewrite (Split_leaf d focused state profile c1 p w L Ec Eg). eauto.
  - destruct (wf_split p W L) as [(f & s & Ef & Es & Wf & Ws) _].
    rewrite Split_eq, L, Ef, Es. simpl.
    destruct (_HasFocusedChild focused f).
    + destruct (IHf f Ef Wf w) as (f' & w' & E).
      unfold bind. rewrite E. unfold ret. eauto.
    + destruct (_HasFocusedChild focused s).
      * destruct (IHs s Es Ws w) as (s' & w' & E).
        unfold bind. rewrite E. unfold ret. eauto.
      * unfold ret. eauto.
Qed.

(** X17: in every reachable state of a tab the two last-focused queries, a focus
    refresh, a settings update and a split with a control return a result:
    none of them dereferences a null child, control or profile. *)
Theorem reachable_methods_return d discipline root w :
  reachable d discipline root w ->
  (exists r, GetLastFocusedTerminalControl root = Some r) /\
  (exists r, GetLastFocusedProfile root = Some r) /\
  (forall focused, exists root',
     CheckFocus focused root w = Some (root', w)) /\
  (forall settings profile,
     exists w', CheckUpdateSettings settings profile root w
                = Some (root, w')) /\
  (forall d' focused state profile c1, exists root' w',
     Split_ d' focused state profile (Some c1) root w = Some (root', w')).
Proof.
  intros R. assert (W : wf root = true) by apply (reachable_inv R).
  split; [|split; [|split; [|split]]].
  - rewrite (GetLastFocusedTerminalControl_spec root W). eauto.
  - rewrite (GetLastFocusedProfile_spec root W). eauto.
  - intros focused.
    destruct (@CheckFocus_spec focused root W w) as (p' & H & _). eauto.
  - intros settings profile.
    rewrite (@CheckUpdateSettings_spec settings profile root W w). eauto.
  - intros d' focused state profile c1. apply Split_returns, W.
Qed.

Lemma reachable_methods_return_witness :
  reachable false any_focus tab4 world4 /\
  (exists r, GetLastFocusedTerminalControl tab4 = Some r) /\
  (exists root' w',
     SplitVertical false (focus_on 11) 6 (Some 13) tab4 world4
       = Some (root', w')).
Proof.
  split; [exact (session_reachable any_focus)|].
  destruct (@reachable_methods_return false any_focus tab4 world4
              (session_reachable any_focus)) as (H1 & _ & _ & _ & H5).
  exact (conj H1 (H5 false (focus_on 11) SplitState.Vertical 6 13)).
Defined.

(** ** Every split is subscribed to its children *)

Lemma Wired_node p :
  Wired p <->
  node_wired p /\
  (forall first, _firstChild p = Some first -> Wired first) /\
  (forall second, _secondChild p = Some second -> Wired second).
Proof.
  unfold Wired. split.
  - intros H. split; [|split].
    + apply H. rewrite nodes_eq. left. reflexivity.
    + intros f Ef n Hn. apply H. rewrite nodes_eq, Ef. right.
      apply in_or_app. left. exact Hn.
    + intros s Es n Hn. apply H. rewrite nodes_eq, Es. right.
      apply in_or_app. right. exact Hn.
  - intros (Hp & Hf & Hs) n Hn. rewrite nodes_eq in Hn.
    destruct Hn as [<-|Hn]; [exact Hp|].
    apply in_app_or in Hn. destruct Hn as [Hn|Hn].
    + destruct (_firstChild p) as [f|]; [|contradiction].
      exact (Hf f eq_refl n Hn).
    + destruct (_secondChild p) as [s|]; [|contradiction].
      exact (Hs s eq_refl n Hn).
Qed.

Lemma Wired_leaf p :
  _IsLeaf p = true -> _firstChild p = None -> _secondChild p = None ->
  Wired p.
Proof.
  intros L Ef Es. apply Wired_node. split; [|split].
  - intros L'. congruence.
  - intros f E. congruence.
  - intros s E. congruence.
Qed.

Lemma Wired_set_closedHandlers hs q :
  Wired q -> Wired (set_closedHandlers hs q).
Proof.
  intros H. apply Wired_node in H. destruct H as (Hq & Hf & Hs).
  apply Wired_node. destruct q as [a c lf pr ss f s t0 t1 t2 h].
  split; [exact Hq | split; assumption].
Qed.

Lemma Wired_set_firstChild p first first' :
  _firstChild p = Some first -> Wired p -> Wired first' ->
  _closedHandlers first' = _closedHandlers first ->
  Wired (set_firstChild (Some first') p).
Proof.
  intros Ef H Hf' Eh. apply Wired_node in H. destruct H as (Hp & _ & Hs).
  apply Wired_node. destruct p as [a c lf pr ss f s t0 t1 t2 h].
  simpl in Ef. subst f. split; [|split].
  - intros L. destruct (Hp L) as (x & y & Ex & Ey & H1 & H2).
    simpl in *. injection Ex as <-. exists first', y.
    rewrite Eh. auto.
  - simpl. intros x E. injection E as <-. exact Hf'.
  - exact Hs.
Qed.

Lemma Wired_set_secondChild p second second' :
  _secondChild p = Some second -> Wired p -> Wired second' ->
  _closedHandlers second' = _closedHandlers second ->
  Wired (set_secondChild (Some second') p).
Proof.
  intros Es H Hs' Eh. apply Wired_node in H. destruct H as (Hp & Hf & _).
  apply Wired_node. destruct p as [a c lf pr ss f s t0 t1 t2 h].
  simpl in Es. subst s. split; [|split].
  - intros L. destruct (Hp L) as (x & y & Ex & Ey & H1 & H2).
    simpl in *. injection Ey as <-. exists x, second'.
    rewrite Eh. auto.
  - exact Hf.
  - simpl. intros x E. injection E as <-. exact Hs'.
Qed.

Lemma Wired_split_parent d state g1 c1 p c0 g0 w :
  Wired (split_parent d state g1 c1 p c0 g0 w).
Proof.
  apply Wired_node. split; [|split].
  - intros _. exists (split_first d p c0 g0 w), (split_second d g1 c1 p w).
    repeat split; left; reflexivity.
  - intros f E. injection E as <-. apply Wired_leaf; reflexivity.
  - intros s E. injection E as <-. apply Wired_leaf; reflexivity.
Qed.

Lemma Wired_collapsed_split p remaining w rfirst rsecond :
  Wired rfirst -> Wired rsecond ->
  Wired (collapsed_split p remaining w rfirst rsecond).
Proof.
  intros Hf Hs. apply Wired_node. split; [|split].
  - intros _. do 2 eexists. split; [reflexivity|]. split; [reflexivity|].
    split; destruct rfirst, rsecond; simpl; apply in_or_app; right; left;
      reflexivity.
  - intros f E. injection E as <-. apply Wired_set_closedHandlers, Hf.
  - intros s E. injection E as <-. apply Wired_set_closedHandlers, Hs.
Qed.

Lemma Split_polite d focused state profile control :
  state <> SplitState.None ->
  polite (Split_ d focused state profile control).
Proof.
  intros Hs q. induction q as [p IHf IHs] using Pane_induction.
  intros w p' w' W Hw H.
  assert (W' : wf p' = true)
    by apply (@Split_wf d focused state profile control Hs p W w p' w' H).
  split; [exact W'|]. clear W'. destruct (_IsLeaf p) eqn:L.
  - destruct control as [c1|]; [|rewrite Split_leaf_null in H; congruence].
    destruct (wf_leaf p W L) as (_ & _ & [c0 Ec] & [g0 Eg]).
    rewrite (Split_leaf d focused state profile c1 p w L Ec Eg) in H.
    injection H as <- <-.
    split; [apply Wired_split_parent | split; reflexivity].
  - destruct (wf_split p W L) as [(f & s & Ef & Es & Wf & Ws) _].
    pose proof (proj1 (Wired_node p) Hw) as (_ & Hwf & Hws).
    rewrite Split_eq, L, Ef, Es in H. simpl in H.
    destruct (_HasFocusedChild focused f).
    + unfold bind in H.
      destruct (Split_ d focused state profile control f w)
        as [[f' w1]|] eqn:E; [|discriminate].
      injection H as <- <-.
      destruct (IHf f Ef _ _ _ Wf (Hwf f Ef) E) as (_ & Hf' & _ & Eh).
      split; [exact (@Wired_set_firstChild p _ _ Ef Hw Hf' Eh)|].
      destruct p; split; reflexivity.
    + destruct (_HasFocusedChild focused s).
      * unfold bind in H.
        destruct (Split_ d focused state profile control s w)
          as [[s' w1]|] eqn:E; [|discriminate].
        injection H as <- <-.
        destruct (IHs s Es _ _ _ Ws (Hws s Es) E) as (_ & Hs' & _ & Eh).
        split; [exact (@Wired_set_secondChild p _ _ Es Hw Hs' Eh)|].
        destruct p; split; reflexivity.
      * injection H as <- <-. split; [exact Hw | split; reflexivity].
Qed.

Lemma CheckFocus_polite focused : polite (CheckFocus focused).
Proof.
  intros q. induction q as [p IHf IHs] using Pane_induction.
  intros w p' w' W Hw H.
  assert (W' : wf p' = true).
  { destruct (@CheckFocus_spec focused p W w) as (x & E & Wx & _).
    rewrite E in H. injection H as <- _. exact Wx. }
  split; [exact W'|]. clear W'.
  rewrite CheckFocus_eq in H. destruct (_IsLeaf p) eqn:L.
  - cbv zeta in H. unfold ret in H. injection H as <- <-.
    destruct (wf_leaf p W L) as (Ef & Es & _).
    split; [|destruct p; split; reflexivity].
    apply Wired_leaf; destruct p; assumption.
  - destruct (wf_split p W L) as [(f & s & Ef & Es & Wf & Ws) (_ & _ & Hl)].
    pose proof (proj1 (Wired_node p) Hw) as (_ & Hwf & Hws).
    cbv zeta in H. rewrite (set_lastFocused_same p Hl), Ef in H.
    unfold bind at 1 in H.
    destruct (CheckFocus focused f w) as [[f' w1]|] eqn:E1; [|discriminate].
    assert (Es' : _secondChild (set_firstChild (Some f') p) = Some s)
      by (destruct p; exact Es).
    rewrite Es' in H. unfold bind in H.
    destruct (CheckFocus focused s w1) as [[s' w2]|] eqn:E2; [|discriminate].
    unfold ret in H. injection H as <- <-.
    destruct (IHf f Ef _ _ _ Wf (Hwf f Ef) E1) as (_ & Hf' & _ & Eh1).
    destruct (IHs s Es _ _ _ Ws (Hws s Es) E2) as (_ & Hs' & _ & Eh2).
    split; [|destruct p; split; reflexivity].
    apply (@Wired_set_secondChild _ _ _ Es'); [|exact Hs' | exact Eh2].
    exact (@Wired_set_firstChild p _ _ Ef Hw Hf' Eh1).
Qed.

Lemma CloseChild_polite (closeFirst : bool) : polite (_CloseChild closeFirst).
Proof.
  intros p w p' w' W Hw H.
  split; [apply (@CloseChild_tame closeFirst p w p' w' W H)|].
  destruct (_IsLeaf p) eqn:L;
    [rewrite (CloseChild_on_leaf closeFirst p w W L) in H; discriminate|].
  destruct (wf_split p W L) as [(f & s & Ef & Es & Wf & Ws) _].
  pose proof (proj1 (Wired_node p) Hw) as (_ & Hwf & Hws).
  assert (Wr : wf (if closeFirst then s else f) = true)
    by (destruct closeFirst; assumption).
  assert (Hr : Wired (if closeFirst then s else f))
    by (destruct closeFirst; auto).
  destruct (_IsLeaf (if closeFirst then s else f)) eqn:Lr.
  - destruct (wf_leaf _ Wr Lr) as (_ & _ & [c Ec] & _).
    rewrite (CloseChild_leaf closeFirst p w Ef Es Lr Ec) in H.
    injection H as <- <-.
    split; [apply Wired_leaf; reflexivity | split; reflexivity].
  - destruct (wf_split _ Wr Lr) as [(rf & rs & Erf & Ers & _ & _) _].
    rewrite (CloseChild_split closeFirst p w Ef Es Lr Erf Ers) in H.
    injection H as <- <-.
    pose proof (proj1 (Wired_node _) Hr) as (_ & Hrf & Hrs).
    split; [|split; reflexivity].
    apply Wired_collapsed_split; auto.
Qed.

Lemma at_pane_polite a f : polite f -> polite (at_pane a f).
Proof.
  intros Hf q. induction q as [q IHf IHs] using Pane_induction.
  intros w q' w' W Hw H. rewrite at_pane_eq in H.
  destruct (this q =? a); [exact (Hf _ _ _ _ W Hw H)|].
  destruct (_IsLeaf q) eqn:L.
  - destruct (wf_leaf q W L) as (Ef & Es & _).
    rewrite Ef, Es in H. discriminate.
  - destruct (wf_split q W L) as [(x & y & Ef & Es & Wx & Wy) _].
    pose proof (proj1 (Wired_node q) Hw) as (_ & Hwx & Hwy).
    rewrite Ef, Es in H.
    destruct (find_pane a x).
    + unfold bind in H.
      destruct (at_pane a f x w) as [[x' w1]|] eqn:E; [|discriminate].
      injection H as <- <-.
      destruct (IHf x Ef _ _ _ Wx (Hwx x Ef) E) as (Wx' & Hx' & _ & Eh).
      split; [apply wf_set_firstChild; assumption|].
      split; [exact (@Wired_set_firstChild q _ _ Ef Hw Hx' Eh)|].
      destruct q; split; reflexivity.
    + unfold bind in H.
      destruct (at_pane a f y w) as [[y' w1]|] eqn:E; [|discriminate].
      injection H as <- <-.
      destruct (IHs y Es _ _ _ Wy (Hwy y Es) E) as (Wy' & Hy' & _ & Eh).
      split; [apply wf_set_secondChild; assumption|].
      split; [exact (@Wired_set_secondChild q _ _ Es Hw Hy' Eh)|].
      destruct q; split; reflexivity.
Qed.

(** X18: in every reachable state of a tab, every split is subscribed to the
    Closed event of both its current children: each child holds, under the
    token the split keeps for it, the delegate that asks the split to close
    that child. *)
Theorem reachable_wired d discipline root w :
  reachable d discipline root w ->
  forall n, In n (nodes root) -> _IsLeaf n = false ->
  exists first second,
    _firstChild n = Some first /\ _secondChild n = Some second /\
    In (_firstClosedToken n, mkClosedHandler (this n) true)
       (_closedHandlers first) /\
    In (_secondClosedToken n, mkClosedHandler (this n) false)
       (_closedHandlers second).
Proof.
  intros R. change (Wired root).
  induction R as
    [ g c lf w0 root w Hnew
    | focused g c root w root' w' R IH Hop
    | focused g c root w root' w' R IH Hop
    | focused root w root' w' R IH Hd Hop
    | settings g root w root' w' R IH Hop
    | a b root w root' w' R IH Hop
    | coe c root w w' R IH Hop
    | root w root' w' R IH Hop ].
  - destruct c as [c|]; [|discriminate]. injection Hnew as <- <-.
    apply Wired_leaf; reflexivity.
  - assert (Hs : SplitState.Vertical <> SplitState.None) by discriminate.
    apply (@Split_polite d focused _ g c Hs root w root' w'
             (proj1 (reachable_inv R)) IH Hop).
  - assert (Hs : SplitState.Horizontal <> SplitState.None) by discriminate.
    apply (@Split_polite d focused _ g c Hs root w root' w'
             (proj1 (reachable_inv R)) IH Hop).
  - apply (@CheckFocus_polite focused root w root' w'
             (proj1 (reachable_inv R)) IH Hop).
  - rewrite (@CheckUpdateSettings_spec settings g root
               (proj1 (reachable_inv R))) in Hop.
    injection Hop as <- <-. exact IH.
  - apply (@at_pane_polite a _ (CloseChild_polite b) root w root' w'
             (proj1 (reachable_inv R)) IH Hop).
  - exact IH.
  - unfold run_next_task in Hop.
    destruct (dispatcher w) as [|task rest]; [discriminate|].
    apply (@at_pane_polite (owner task) _
             (CloseChild_polite (closeFirst task)) root _ root' w'
             (proj1 (reachable_inv R)) IH Hop).
Qed.

Lemma reachable_wired_witness :
  reachable false any_focus tab4 world4 /\
  exists first second,
    _firstChild tab4 = Some first /\ _secondChild tab4 = Some second /\
    In (10, mkClosedHandler 1 true) (_closedHandlers first) /\
    In (11, mkClosedHandler 1 false) (_closedHandlers second).
Proof.
  split; [exact (session_reachable any_focus)|].
  exact (@reachable_wired false any_focus tab4 world4
           (session_reachable any_focus) tab4 (or_introl eq_refl) eq_refl).
Defined.
